(** * tc_node_api: seed-node connection manager and validator fan-out

    A shallow embedding of [src/p2p/p2p.service.ts] (class [P2pService]),
    of the validators service (class [ValidatorsService]) and of the
    validators controller, followed by the properties the specification
    states about them.

    Modelling conventions.
    - Every method of a service is a computation in a small state and
      exception monad [M]: it reads and writes the fields of [this], may
      issue HTTP requests, and completes normally or by throwing, exactly
      where the TypeScript code returns or throws.
    - The network is an oracle: the [k]-th request issued since start is
      answered by [respond env k req], either with a response delivered to
      the [await], or with an [AxiosError] (timeout, refused connection,
      status rejected by axios).  Every request issued is appended to the
      ghost field [sent], so that "does not contact the seed node" is the
      statement that [sent] is unchanged.
    - [new Date()] reads [clock env] at the number of requests issued so
      far; the clock is an arbitrary function, so responses may complete in
      any order.
    - A timer callback is executed atomically, and only while its handle is
      stored in the service (a cleared interval never fires).
    - The logger has no effect on the state and is left out. *)

From Stdlib Require Import ZArith Lia.
From stdpp Require Import base tactics option list strings pretty.

Open Scope Z_scope.

(** ** HTTP requests, responses and the environment *)

Module Http.

Inductive Method := GET | POST.

(** The request as handed to [httpService.get]/[httpService.post];
    [timeout] is the per-call [timeout] option, when the call sets one. *)
Record Request (B : Type) := mkRequest {
  method : Method;
  url : string;
  body : option B;
  headers : list (string * string);
  timeout : option Z }.

Record Response (D : Type) := mkResponse {
  status : Z;
  data : D }.

Record AxiosError := mkAxiosError {
  message : string }.

(** What the observable of one request does: emit a response, or error. *)
Inductive Reply (D : Type) :=
| Emits (r : Response D)
| Errors (e : AxiosError).

(** [{ 'Content-Type': 'application/json' }] *)
Definition json_headers : list (string * string) :=
  [("Content-Type", "application/json")].

Definition Time := Z.

Record Env (B D : Type) := mkEnv {
  respond : nat -> Request B -> Reply D;
  clock : nat -> Time }.

Arguments mkRequest {B} _ _ _ _ _.
Arguments method {B} _.
Arguments url {B} _.
Arguments body {B} _.
Arguments headers {B} _.
Arguments timeout {B} _.
Arguments mkResponse {D} _ _.
Arguments status {D} _.
Arguments data {D} _.
Arguments Emits {D} _.
Arguments Errors {D} _.
Arguments mkEnv {B D} _ _.
Arguments respond {B D} _ _ _.
Arguments clock {B D} _ _.

End Http.

Import Http.

(** ** The monad of service methods *)

Module Async.

(** A JavaScript exception: the error of a request, or a [TypeError]. *)
Inductive Exn :=
| EAxios (e : AxiosError)
| ETypeError (msg : string).

(** [error.message] *)
Definition exn_message (e : Exn) : string :=
  match e with
  | EAxios a => message a
  | ETypeError msg => msg
  end.

Inductive Completion (A : Type) :=
| Return (a : A)
| Throw (e : Exn).
Arguments Return {A} _.
Arguments Throw {A} _.

(** A promise as [Promise.allSettled] reports it. *)
Inductive Settled (A : Type) :=
| fulfilled (value : A)
| rejected (reason : Exn).
Arguments fulfilled {A} _.
Arguments rejected {A} _.

Record World (St B : Type) := mkWorld {
  this : St;
  sent : list (Request B);
  handles : nat }.
Arguments mkWorld {St B} _ _ _.
Arguments this {St B} _.
Arguments sent {St B} _.
Arguments handles {St B} _.

Section Monad.
Context {St B D : Type}.
Variable env : Env B D.

Definition M (A : Type) : Type := World St B -> Completion A * World St B.

Definition ret {A} (a : A) : M A := fun w => (Return a, w).

Definition bind {A C} (m : M A) (k : A -> M C) : M C :=
  fun w =>
    match m w with
    | (Return a, w') => k a w'
    | (Throw e, w') => (Throw e, w')
    end.

Definition throw {A} (e : Exn) : M A := fun w => (Throw e, w).

(** [try { body } catch (error) { handler error }] *)
Definition try_catch {A} (body : M A) (handler : Exn -> M A) : M A :=
  fun w =>
    match body w with
    | (Return a, w') => (Return a, w')
    | (Throw e, w') => handler e w'
    end.

Definition gets {A} (f : St -> A) : M A := fun w => (Return (f (this w)), w).

Definition modify (f : St -> St) : M unit :=
  fun w => (Return tt, mkWorld (f (this w)) (sent w) (handles w)).

(** [new Date()] *)
Definition new_Date : M Time :=
  fun w => (Return (clock env (length (sent w))), w).

(** [setInterval(callback, ms)]: a fresh handle. *)
Definition setInterval : M nat :=
  fun w => (Return (handles w), mkWorld (this w) (sent w) (S (handles w))).

(** The observable of a request, subscribed to: the request goes out
    and the observable emits or errors. *)
Definition subscribe (req : Request B) : M (Reply D) :=
  fun w =>
    (Return (respond env (length (sent w)) req),
     mkWorld (this w) (sent w ++ [req]) (handles w)).

(** [firstValueFrom(obs.pipe(catchError(onError)))] where [onError]
    runs its side effect and rethrows. *)
Definition firstValueFrom_rethrow (req : Request B)
    (onError : AxiosError -> M unit) : M (Response D) :=
  bind (subscribe req) (fun reply =>
    match reply with
    | Emits r => ret r
    | Errors e => bind (onError e) (fun _ => throw (EAxios e))
    end).

(** [firstValueFrom(obs.pipe(map(onNext), catchError(e => [onError e])))]:
    the error is replaced by a one-element stream. *)
Definition firstValueFrom_recover {A} (req : Request B)
    (onNext : Response D -> M A) (onError : AxiosError -> M A) : M A :=
  bind (subscribe req) (fun reply =>
    match reply with
    | Emits r => onNext r
    | Errors e => onError e
    end).

(** The promise of an async function, once settled. *)
Definition settle {A} (m : M A) : World St B -> Settled A * World St B :=
  fun w =>
    match m w with
    | (Return a, w') => (fulfilled a, w')
    | (Throw e, w') => (rejected e, w')
    end.

(** [Promise.allSettled(xs.map(async x => f x))]: the async callbacks
    start in list order; each settles on its own. *)
Fixpoint allSettled_map {X A} (f : X -> M A) (xs : list X)
    : World St B -> list (Settled A) * World St B :=
  fun w =>
    match xs with
    | [] => ([], w)
    | x :: xs' =>
        let (r, w1) := settle (f x) w in
        let (rs, w2) := allSettled_map f xs' w1 in
        (r :: rs, w2)
    end.

Definition await_allSettled {X A} (f : X -> M A) (xs : list X)
    : M (list (Settled A)) :=
  fun w => let (rs, w') := allSettled_map f xs w in (Return rs, w').

(** [xs.map(x => f x)] for a callback that reads the clock. *)
Fixpoint traverse {X A} (f : X -> M A) (xs : list X) : M (list A) :=
  match xs with
  | [] => ret []
  | x :: xs' =>
      bind (f x) (fun a => bind (traverse f xs') (fun l => ret (a :: l)))
  end.

End Monad.

Notation "'let*' x ':=' m 'in' k" := (bind m (fun x => k))
  (at level 10, x name, m at level 100, k at level 200).
Notation "'do' m 'then' k" := (bind m (fun _ => k))
  (at level 10, m at level 100, k at level 200).

End Async.

Import Async.

(** ** Configuration *)

Module Config.

(** [configService.get(key)]: the value of a key of the environment, when
    it is set. *)
Record ConfigService := mkConfigService {
  get_string : string -> option string }.

(** [value || fallback] on strings: a missing value and the empty string
    are falsy. *)
Definition or_string (value : option string) (fallback : string) : string :=
  match value with
  | None => fallback
  | Some EmptyString => fallback
  | Some s => s
  end.

End Config.

Import Config.

(** ** The connection manager: [src/p2p/p2p.service.ts] *)

Module P2pService.

Record SeedNodeConfig := mkConfig {
  seedNodeAddress : string;
  nodePort : Z;
  nodeHost : string;
  pingInterval : Z;
  reconnectInterval : Z;
  maxReconnectAttempts : Z }.

Inductive RegistrationStatus :=
| NOT_REGISTERED
| REGISTERING
| REGISTERED
| FAILED.

(** The only request body this service sends: [JSON.stringify(s)]. *)
Inductive Body := JSON_stringify (s : string).

(** The fields of the class. *)
Record Service := mkService {
  config : SeedNodeConfig;
  nodeAddress : string;
  connected : bool;
  registrationStatus : RegistrationStatus;
  lastPingTime : option Time;
  pingIntervalRef : option nat;
  reconnectAttempts : Z;
  reconnectIntervalRef : option nat }.

Definition set_connected (b : bool) (s : Service) : Service :=
  mkService (config s) (nodeAddress s) b (registrationStatus s)
    (lastPingTime s) (pingIntervalRef s) (reconnectAttempts s)
    (reconnectIntervalRef s).

Definition set_registrationStatus (r : RegistrationStatus) (s : Service) : Service :=
  mkService (config s) (nodeAddress s) (connected s) r
    (lastPingTime s) (pingIntervalRef s) (reconnectAttempts s)
    (reconnectIntervalRef s).

Definition set_lastPingTime (t : option Time) (s : Service) : Service :=
  mkService (config s) (nodeAddress s) (connected s) (registrationStatus s)
    t (pingIntervalRef s) (reconnectAttempts s) (reconnectIntervalRef s).

Definition set_pingIntervalRef (h : option nat) (s : Service) : Service :=
  mkService (config s) (nodeAddress s) (connected s) (registrationStatus s)
    (lastPingTime s) h (reconnectAttempts s) (reconnectIntervalRef s).

Definition set_reconnectAttempts (n : Z) (s : Service) : Service :=
  mkService (config s) (nodeAddress s) (connected s) (registrationStatus s)
    (lastPingTime s) (pingIntervalRef s) n (reconnectIntervalRef s).

Definition set_reconnectIntervalRef (h : option nat) (s : Service) : Service :=
  mkService (config s) (nodeAddress s) (connected s) (registrationStatus s)
    (lastPingTime s) (pingIntervalRef s) (reconnectAttempts s) h.

(** The field initialisers of the class, for whatever configuration and
    address the constructor has read from the environment. *)
Definition construct (cfg : SeedNodeConfig) (addr : string) : Service :=
  mkService cfg addr false NOT_REGISTERED None None 0 None.

(** The world at start: the service as constructed, nothing sent, no
    timer created. *)
Definition initial (cfg : SeedNodeConfig) (addr : string) : World Service Body :=
  mkWorld (construct cfg addr) [] 0%nat.

Section Methods.
Variable env : Env Body (list string).

Local Abbreviation M := (@M Service Body).

Definition seedUrl (path : string) : M string :=
  let* cfg := gets config in
  ret ("http://" +:+ seedNodeAddress cfg +:+ path).

Definition stopPingInterval : M unit :=
  let* ref := gets pingIntervalRef in
  match ref with
  | Some _ => modify (set_pingIntervalRef None)
  | None => ret tt
  end.

Definition stopReconnectInterval : M unit :=
  let* ref := gets reconnectIntervalRef in
  match ref with
  | Some _ => modify (set_reconnectIntervalRef None)
  | None => ret tt
  end.

Definition startPingInterval : M unit :=
  do stopPingInterval then
  let* h := setInterval in
  modify (set_pingIntervalRef (Some h)).

Definition startReconnectInterval : M unit :=
  do stopReconnectInterval then
  let* h := setInterval in
  modify (set_reconnectIntervalRef (Some h)).

Definition handleConnectionFailure : M unit :=
  do modify (set_connected false) then
  let* ref := gets reconnectIntervalRef in
  match ref with
  | None => startReconnectInterval
  | Some _ => ret tt
  end.

Definition pingSeedNode : M bool :=
  try_catch
    (let* u := seedUrl "/ping" in
     let* response :=
       firstValueFrom_rethrow env (mkRequest GET u None [] None)
         (fun _ => ret tt) in
     if status response =? 200 then
       do modify (set_connected true) then
       let* now := new_Date env in
       do modify (set_lastPingTime (Some now)) then
       ret true
     else
       do modify (set_connected false) then
       ret false)
    (fun error =>
       do modify (set_connected false) then
       let* c := gets connected in
       do (if c then handleConnectionFailure else ret tt) then
       ret false).

Definition registerWithSeedNode : M bool :=
  try_catch
    (do modify (set_registrationStatus REGISTERING) then
     let* u := seedUrl "/register" in
     let* addr := gets nodeAddress in
     let* response :=
       firstValueFrom_rethrow env
         (mkRequest POST u (Some (JSON_stringify addr)) json_headers None)
         (fun _ => modify (set_registrationStatus FAILED)) in
     if status response =? 201 then
       do modify (set_registrationStatus REGISTERED) then
       ret true
     else if status response =? 200 then
       do modify (set_registrationStatus REGISTERED) then
       ret true
     else
       do modify (set_registrationStatus FAILED) then
       ret false)
    (fun error =>
       do modify (set_registrationStatus FAILED) then
       ret false).

Definition connectToSeedNode : M bool :=
  try_catch
    (let* pingResult := pingSeedNode in
     if negb pingResult then
       do handleConnectionFailure then
       ret false
     else
       let* _ := registerWithSeedNode in
       ret true)
    (fun error =>
       do handleConnectionFailure then
       ret false).

(** The callback [startReconnectInterval] hands to [setInterval]. *)
Definition reconnectTick : M unit :=
  let* attempts := gets reconnectAttempts in
  let* cfg := gets config in
  if attempts >=? maxReconnectAttempts cfg then
    stopReconnectInterval
  else
    do modify (fun s => set_reconnectAttempts (reconnectAttempts s + 1) s) then
    let* _ := connectToSeedNode in
    let* c := gets connected in
    if c then
      do stopReconnectInterval then
      modify (set_reconnectAttempts 0)
    else ret tt.

(** The callback [startPingInterval] hands to [setInterval]. *)
Definition pingTick : M unit :=
  let* _ := pingSeedNode in
  ret tt.

Definition onModuleInit : M unit :=
  let* _ := connectToSeedNode in
  startPingInterval.

Definition onModuleDestroy : M unit :=
  do stopPingInterval then
  stopReconnectInterval.

Definition getKnownNodes : M (list string) :=
  try_catch
    (let* c := gets connected in
     if negb c then ret []
     else
       let* u := seedUrl "/nodes" in
       let* response :=
         firstValueFrom_rethrow env (mkRequest GET u None [] None)
           (fun _ => ret tt) in
       ret (data response))
    (fun error => ret []).

Definition getActiveNodes : M (list string) :=
  try_catch
    (let* c := gets connected in
     if negb c then ret []
     else
       let* u := seedUrl "/nodes/active" in
       let* response :=
         firstValueFrom_rethrow env (mkRequest GET u None [] None)
           (fun _ => ret tt) in
       ret (data response))
    (fun error => ret []).

(** *** Everything that can happen to a running service

    Lifecycle hooks, the two timers, and the two routes of the p2p
    controller that reach the network.  A timer fires only while its
    handle is stored in the service. *)

Inductive Event :=
| ModuleInit
| PingTimer
| ReconnectTimer
| GetNodes
| GetActiveNodes
| ModuleDestroy.

Definition after {A} (m : M A) (w : World Service Body) : World Service Body :=
  snd (m w).

Definition fire (e : Event) (w : World Service Body) : World Service Body :=
  match e with
  | ModuleInit => after onModuleInit w
  | PingTimer =>
      match pingIntervalRef (this w) with
      | Some _ => after pingTick w
      | None => w
      end
  | ReconnectTimer =>
      match reconnectIntervalRef (this w) with
      | Some _ => after reconnectTick w
      | None => w
      end
  | GetNodes => after getKnownNodes w
  | GetActiveNodes => after getActiveNodes w
  | ModuleDestroy => after onModuleDestroy w
  end.

Definition run (es : list Event) (w : World Service Body) : World Service Body :=
  foldl (fun w e => fire e w) w es.

(** *** Vocabulary for the properties below *)

(** The request [pingSeedNode] issues in a given state, and whether the
    seed node answers it with status 200. *)
Definition pingRequest (s : Service) : Request Body :=
  mkRequest GET ("http://" +:+ seedNodeAddress (config s) +:+ "/ping") None [] None.

Definition ping_succeeds (w : World Service Body) : bool :=
  match respond env (length (sent w)) (pingRequest (this w)) with
  | Emits r => status r =? 200
  | Errors _ => false
  end.

(** The request [registerWithSeedNode] issues, and whether the seed node
    answers it with 201 or 200. *)
Definition registerRequest (s : Service) : Request Body :=
  mkRequest POST ("http://" +:+ seedNodeAddress (config s) +:+ "/register")
    (Some (JSON_stringify (nodeAddress s))) json_headers None.

Definition registration_succeeds (w : World Service Body) : bool :=
  match respond env (length (sent w)) (registerRequest (this w)) with
  | Emits r => (status r =? 201) || (status r =? 200)
  | Errors _ => false
  end.

(** The next [n] firings of the reconnect timer are ticks in which
    [connectToSeedNode] is called (the attempts are not used up) and
    fails; it returns [false] exactly when its ping fails. *)
Fixpoint attempts_fail (n : nat) (w : World Service Body) : bool :=
  match n with
  | O => true
  | S n' =>
      (reconnectAttempts (this w) <? maxReconnectAttempts (config (this w)))
      && negb (ping_succeeds w)
      && attempts_fail n' (fire ReconnectTimer w)
  end.

(** The data model's sentence on an idle service, word for word: the
    counter is 0 when no reconnect timer is active. *)
Definition idle_means_zero (w : World Service Body) : Prop :=
  reconnectIntervalRef (this w) = None -> reconnectAttempts (this w) = 0.

End Methods.

End P2pService.


(** ** The peer directory and the fan-out: the validators service *)

Module ValidatorsService.

Record ValidatorNode := mkNode {
  address : string;
  nodeType : string;
  lastSeen : string;
  isResponding : bool;
  version : option string }.

Definition set_isResponding (b : bool) (n : ValidatorNode) : ValidatorNode :=
  mkNode (address n) (nodeType n) (lastSeen n) b (version n).

Definition set_lastSeen (t : string) (n : ValidatorNode) : ValidatorNode :=
  mkNode (address n) (nodeType n) t (isResponding n) (version n).

Record TransactionRequest := mkTransaction {
  tx_from : string;
  tx_to : string;
  tx_amount : Z;
  tx_signature : option string;
  tx_timestamp : option string }.

Record BatchTransactionRequest := mkBatch {
  transactions : list TransactionRequest }.

Record CriticalProcessRequest := mkCritical {
  processId : string;
  cp_data : string;
  priority : Z;
  cp_timestamp : option string }.

Inductive Body :=
| TransactionBody (t : TransactionRequest)
| BatchBody (b : BatchTransactionRequest)
| CriticalBody (c : CriticalProcessRequest).

(** [response.data]: an array of peer descriptors, or anything else. *)
Inductive Data :=
| Nodes (ns : list ValidatorNode)
| Opaque (raw : string).

Record ValidatorResponse := mkValidatorResponse {
  success : bool;
  data : option Data;
  error : option string;
  timestamp : string;
  validatorAddress : string }.

Module ValidatorEndpoints.
Definition PING : string := "/ping".
Definition TX : string := "/tx".
Definition TX_BATCH : string := "/tx/batch".
Definition CRITICAL : string := "/critical".
Definition STATUS_TX : string := "/status/tx".
Definition STATUS_CRITICAL : string := "/status/critical".
Definition MEMPOOL_TX : string := "/mempool/tx".
Definition MEMPOOL_CRITICAL : string := "/mempool/critical".
End ValidatorEndpoints.

(** The fields of the class. *)
Record Service := mkService {
  validatorNodes : list ValidatorNode;
  seedNodeAddress : string;
  healthCheckInterval : option nat }.

Definition set_validatorNodes (ns : list ValidatorNode) (s : Service) : Service :=
  mkService ns (seedNodeAddress s) (healthCheckInterval s).

Definition set_healthCheckInterval (h : option nat) (s : Service) : Service :=
  mkService (validatorNodes s) (seedNodeAddress s) h.

Definition construct (seed : string) : Service := mkService [] seed None.

Definition constructor (configService : ConfigService) : Service :=
  construct (or_string (get_string configService "SEED_NODE_ADDRESS") "localhost:3000").

Definition getValidatorNodes (s : Service) : list ValidatorNode :=
  validatorNodes s.

Definition getActiveValidatorNodes (s : Service) : list ValidatorNode :=
  filter (fun node => isResponding node = true) (validatorNodes s).

Section Methods.
Variable env : Env Body Data.
(** [Date.prototype.toISOString] *)
Variable toISOString : Time -> string.

Local Abbreviation M := (@M Service Body).

(** [allNodes.filter(p)]: a [TypeError] when the payload is no array. *)
Definition array_filter (d : Data) (p : ValidatorNode -> bool) : M (list ValidatorNode) :=
  match d with
  | Nodes allNodes => ret (filter (fun node => p node = true) allNodes)
  | Opaque _ => throw (ETypeError "allNodes.filter is not a function")
  end.

Definition loadValidatorNodes : M (list ValidatorNode) :=
  try_catch
    (let* seed := gets seedNodeAddress in
     let* response :=
       firstValueFrom_rethrow env
         (mkRequest GET ("http://" +:+ seed +:+ "/nodes/active") None [] None)
         (fun _ => ret tt) in
     let* validators :=
       array_filter (Http.data response)
         (fun node => String.eqb (nodeType node) "validator") in
     do modify (set_validatorNodes validators) then
     gets validatorNodes)
    (fun error => ret []).

Definition refreshValidatorNodes : M (list ValidatorNode) :=
  loadValidatorNodes.

Definition pingValidator (validatorAddress : string) : M bool :=
  try_catch
    (let* response :=
       firstValueFrom_rethrow env
         (mkRequest GET ("http://" +:+ validatorAddress +:+ ValidatorEndpoints.PING)
            None [] (Some 5000))
         (fun _ => ret tt) in
     ret (status response =? 200))
    (fun error => ret false).

(** [node.field = v] for the record stored at position [i] of the array. *)
Definition assign (i : nat) (f : ValidatorNode -> ValidatorNode) : M unit :=
  modify (fun s => set_validatorNodes (alter f i (validatorNodes s)) s).

(** The callback of the sweep, for the record at position [i]. *)
Definition healthCheck (i : nat) (node : ValidatorNode) : M unit :=
  try_catch
    (let* isHealthy := pingValidator (address node) in
     do assign i (set_isResponding isHealthy) then
     if isHealthy then
       let* now := new_Date env in
       assign i (set_lastSeen (toISOString now))
     else ret tt)
    (fun error => assign i (set_isResponding false)).

Definition checkValidatorNodesHealth : M unit :=
  let* nodes := gets validatorNodes in
  let* _ := await_allSettled (fun p => healthCheck (fst p) (snd p))
              (imap pair nodes) in
  ret tt.

Definition stopHealthCheckInterval : M unit :=
  let* ref := gets healthCheckInterval in
  match ref with
  | Some _ => modify (set_healthCheckInterval None)
  | None => ret tt
  end.

Definition startHealthCheckInterval : M unit :=
  do stopHealthCheckInterval then
  let* h := setInterval in
  modify (set_healthCheckInterval (Some h)).

Definition onModuleInit : M unit :=
  let* _ := loadValidatorNodes in
  startHealthCheckInterval.

Definition onModuleDestroy : M unit :=
  stopHealthCheckInterval.

(** The callback of a broadcast: one request to one validator.  The five
    broadcast methods of the class repeat it and differ in the request
    only, which is the parameter [mk]. *)
Definition dispatch (mk : string -> Request Body) (validator : ValidatorNode)
    : M ValidatorResponse :=
  try_catch
    (let* response :=
       firstValueFrom_recover env (mk (address validator))
         (fun res =>
            let* now := new_Date env in
            ret (mkValidatorResponse true (Some (Http.data res)) None
                   (toISOString now) (address validator)))
         (fun error =>
            let* now := new_Date env in
            ret (mkValidatorResponse false None (Some (message error))
                   (toISOString now) (address validator))) in
     ret response)
    (fun error =>
       let* now := new_Date env in
       ret (mkValidatorResponse false None (Some (exn_message error))
              (toISOString now) (address validator))).

(** [result.status === 'fulfilled' ? result.value : {...}] *)
Definition collect (result : Settled ValidatorResponse) : M ValidatorResponse :=
  match result with
  | fulfilled value => ret value
  | rejected _ =>
      let* now := new_Date env in
      ret (mkValidatorResponse false None (Some "Promise rejected")
             (toISOString now) "unknown")
  end.

Definition broadcast (mk : string -> Request Body) : M (list ValidatorResponse) :=
  let* activeValidators := gets getActiveValidatorNodes in
  if (length activeValidators =? 0)%nat then ret []
  else
    let* results := await_allSettled (dispatch mk) activeValidators in
    traverse collect results.

Definition sendTransaction (transaction : TransactionRequest) :=
  broadcast (fun a =>
    mkRequest POST ("http://" +:+ a +:+ ValidatorEndpoints.TX)
      (Some (TransactionBody transaction)) json_headers (Some 10000)).

Definition sendBatchTransactions (batchRequest : BatchTransactionRequest) :=
  broadcast (fun a =>
    mkRequest POST ("http://" +:+ a +:+ ValidatorEndpoints.TX_BATCH)
      (Some (BatchBody batchRequest)) json_headers (Some 15000)).

Definition sendCriticalProcess (criticalRequest : CriticalProcessRequest) :=
  broadcast (fun a =>
    mkRequest POST ("http://" +:+ a +:+ ValidatorEndpoints.CRITICAL)
      (Some (CriticalBody criticalRequest)) json_headers (Some 20000)).

Definition getBlockchainStatus (chain : string) :=
  let endpoint :=
    if String.eqb chain "tx" then ValidatorEndpoints.STATUS_TX
    else ValidatorEndpoints.STATUS_CRITICAL in
  broadcast (fun a =>
    mkRequest GET ("http://" +:+ a +:+ endpoint) None [] (Some 10000)).

Definition getMempoolStatus (pool : string) :=
  let endpoint :=
    if String.eqb pool "tx" then ValidatorEndpoints.MEMPOOL_TX
    else ValidatorEndpoints.MEMPOOL_CRITICAL in
  broadcast (fun a =>
    mkRequest GET ("http://" +:+ a +:+ endpoint) None [] (Some 10000)).

(** *** Vocabulary for the properties below *)

(** The request [loadValidatorNodes] issues, and whether the load fails:
    the request errors, or the payload is no array. *)
Definition loadRequest (s : Service) : Request Body :=
  mkRequest GET ("http://" +:+ seedNodeAddress s +:+ "/nodes/active") None [] None.

Definition load_fails (w : World Service Body) : bool :=
  match respond env (length (sent w)) (loadRequest (this w)) with
  | Emits r =>
      match Http.data r with
      | Nodes _ => false
      | Opaque _ => true
      end
  | Errors _ => true
  end.

(** The liveness probe of a validator, sent as the [k]-th request, and
    whether it is answered with status 200. *)
Definition probeRequest (validatorAddress : string) : Request Body :=
  mkRequest GET ("http://" +:+ validatorAddress +:+ ValidatorEndpoints.PING)
    None [] (Some 5000).

Definition probe_succeeds (k : nat) (validatorAddress : string) : bool :=
  match respond env k (probeRequest validatorAddress) with
  | Emits r => status r =? 200
  | Errors _ => false
  end.

(** What the sweep leaves of a record whose probe was the [k]-th request. *)
Definition swept (k : nat) (node : ValidatorNode) : ValidatorNode :=
  if probe_succeeds k (address node) then
    set_lastSeen (toISOString (clock env (S k))) (set_isResponding true node)
  else set_isResponding false node.

(** Whether the [k]-th request, [req], is answered with a response. *)
Definition dispatch_succeeds (k : nat) (req : Request Body) : bool :=
  match respond env k req with
  | Emits _ => true
  | Errors _ => false
  end.

(** The outcome record of the dispatch to [validator] whose request was
    the [k]-th. *)
Definition outcome (k : nat) (mk : string -> Request Body)
    (validator : ValidatorNode) : ValidatorResponse :=
  match respond env k (mk (address validator)) with
  | Emits res =>
      mkValidatorResponse true (Some (Http.data res)) None
        (toISOString (clock env (S k))) (address validator)
  | Errors e =>
      mkValidatorResponse false None (Some (message e))
        (toISOString (clock env (S k))) (address validator)
  end.

End Methods.

End ValidatorsService.

(** ** The validators controller *)

Module ValidatorsController.
Import ValidatorsService.

(** The object the three POST routes answer with. *)
Record BroadcastReport := mkBroadcastReport {
  message : string;
  results : list ValidatorResponse;
  successCount : nat;
  totalValidators : nat }.

(** The object the two status routes answer with; [target] is the field
    [chain], respectively [pool]. *)
Record QueryReport := mkQueryReport {
  target : string;
  q_results : list ValidatorResponse;
  respondingValidators : nat;
  totalQueried : nat }.

(** [results.filter(r => r.success).length] *)
Definition count_success (rs : list ValidatorResponse) : nat :=
  length (filter (fun r => success r = true) rs).

(** [q || 'tx'] for an optional query parameter. *)
Definition or_tx (q : option string) : string :=
  match q with
  | None => "tx"
  | Some EmptyString => "tx"
  | Some s => s
  end.

Section Routes.
Variable env : Env Body Data.
Variable toISOString : Time -> string.

Local Abbreviation M := (@M Service Body).

Definition sendTransaction (transaction : TransactionRequest) : M BroadcastReport :=
  let* results := ValidatorsService.sendTransaction env toISOString transaction in
  ret (mkBroadcastReport "Transaction sent to validators" results
         (count_success results) (length results)).

Definition sendBatchTransactions (batchRequest : BatchTransactionRequest) : M BroadcastReport :=
  let* results := ValidatorsService.sendBatchTransactions env toISOString batchRequest in
  ret (mkBroadcastReport
         ("Batch of " +:+ pretty (length (transactions batchRequest))
            +:+ " transactions sent to validators")
         results (count_success results) (length results)).

Definition sendCriticalProcess (criticalRequest : CriticalProcessRequest) : M BroadcastReport :=
  let* results := ValidatorsService.sendCriticalProcess env toISOString criticalRequest in
  ret (mkBroadcastReport "Critical process sent to validators" results
         (count_success results) (length results)).

Definition getBlockchainStatus (chain : option string) : M QueryReport :=
  let* results := ValidatorsService.getBlockchainStatus env toISOString (or_tx chain) in
  ret (mkQueryReport (or_tx chain) results (count_success results) (length results)).

Definition getMempoolStatus (pool : option string) : M QueryReport :=
  let* results := ValidatorsService.getMempoolStatus env toISOString (or_tx pool) in
  ret (mkQueryReport (or_tx pool) results (count_success results) (length results)).

(** *** Vocabulary for the properties below *)

(** The five broadcast operations, with their arguments as the routes
    receive them. *)
Inductive Operation :=
| Transaction (transaction : TransactionRequest)
| Batch (batchRequest : BatchTransactionRequest)
| Critical (criticalRequest : CriticalProcessRequest)
| BlockchainStatus (chain : option string)
| MempoolStatus (pool : option string).

(** The method of the service behind each route. *)
Definition service_call (op : Operation) : M (list ValidatorResponse) :=
  match op with
  | Transaction t => ValidatorsService.sendTransaction env toISOString t
  | Batch b => ValidatorsService.sendBatchTransactions env toISOString b
  | Critical c => ValidatorsService.sendCriticalProcess env toISOString c
  | BlockchainStatus chain =>
      ValidatorsService.getBlockchainStatus env toISOString (or_tx chain)
  | MempoolStatus pool =>
      ValidatorsService.getMempoolStatus env toISOString (or_tx pool)
  end.

(** The outcomes, the success count and the total a route reports. *)
Definition route_summary (op : Operation)
    : M (list ValidatorResponse * nat * nat) :=
  match op with
  | Transaction t =>
      let* r := sendTransaction t in
      ret (results r, successCount r, totalValidators r)
  | Batch b =>
      let* r := sendBatchTransactions b in
      ret (results r, successCount r, totalValidators r)
  | Critical c =>
      let* r := sendCriticalProcess c in
      ret (results r, successCount r, totalValidators r)
  | BlockchainStatus chain =>
      let* r := getBlockchainStatus chain in
      ret (q_results r, respondingValidators r, totalQueried r)
  | MempoolStatus pool =>
      let* r := getMempoolStatus pool in
      ret (q_results r, respondingValidators r, totalQueried r)
  end.

(** The request an operation sends to the validator at [a]. *)
Definition request_of (op : Operation) (a : string) : Request Body :=
  match op with
  | Transaction t =>
      mkRequest POST ("http://" +:+ a +:+ "/tx") (Some (TransactionBody t)) json_headers (Some 10000)
  | Batch b =>
      mkRequest POST ("http://" +:+ a +:+ "/tx/batch") (Some (BatchBody b)) json_headers (Some 15000)
  | Critical c =>
      mkRequest POST ("http://" +:+ a +:+ "/critical") (Some (CriticalBody c)) json_headers (Some 20000)
  | BlockchainStatus chain =>
      mkRequest GET
        ("http://" +:+ a +:+
           (if String.eqb (or_tx chain) "tx" then "/status/tx" else "/status/critical"))
        None [] (Some 10000)
  | MempoolStatus pool =>
      mkRequest GET
        ("http://" +:+ a +:+
           (if String.eqb (or_tx pool) "tx" then "/mempool/tx" else "/mempool/critical"))
        None [] (Some 10000)
  end.

End Routes.

End ValidatorsController.

(** * Concrete scenarios *)

Module Scenarios.
Import P2pService.

Definition five_attempts : SeedNodeConfig :=
  mkConfig "localhost:3000" 3100 "localhost" 30000 10000 5.

Definition two_attempts : SeedNodeConfig :=
  mkConfig "localhost:3000" 3100 "localhost" 30000 10000 2.

Definition one_attempt : SeedNodeConfig :=
  mkConfig "localhost:3000" 3100 "localhost" 30000 10000 1.

Definition this_node : string := "localhost:3100".

(** The seed node is unreachable. *)
Definition seed_down : Env Body (list string) :=
  mkEnv (fun _ _ => Errors (mkAxiosError "connect ECONNREFUSED 127.0.0.1:3000"))
        (fun k => 1000 * Z.of_nat k).

(** The seed node answers every GET with 200 and an empty list, and
    every POST with 201. *)
Definition seed_up : Env Body (list string) :=
  mkEnv (fun _ req =>
           match method req with
           | GET => Emits (mkResponse 200 [])
           | POST => Emits (mkResponse 201 [])
           end)
        (fun k => 1000 * Z.of_nat k).

(** The seed node answers pings, and refuses registrations with HTTP 500,
    which axios reports as an error. *)
Definition seed_refuses_registration : Env Body (list string) :=
  mkEnv (fun _ req =>
           match method req with
           | GET => Emits (mkResponse 200 [])
           | POST => Errors (mkAxiosError "Request failed with status code 500")
           end)
        (fun k => 1000 * Z.of_nat k).

(** The seed node answers the first two requests (the ping and the
    registration of the start) and is unreachable afterwards. *)
Definition seed_lost_after_start : Env Body (list string) :=
  mkEnv (fun k req =>
           if (k <? 2)%nat then
             match method req with
             | GET => Emits (mkResponse 200 [])
             | POST => Emits (mkResponse 201 [])
             end
           else Errors (mkAxiosError "timeout of 5000ms exceeded"))
        (fun k => 1000 * Z.of_nat k).

End Scenarios.

Module ValidatorScenarios.
Import ValidatorsService.

Definition peerA : ValidatorNode :=
  mkNode "10.0.0.1:4000" "validator" "2025-01-01T00:00:00.000Z" true None.
Definition peerB : ValidatorNode :=
  mkNode "10.0.0.2:4000" "validator" "2025-01-01T00:00:00.000Z" true (Some "1.0.0").
Definition peerC : ValidatorNode :=
  mkNode "10.0.0.3:4000" "validator" "2025-01-01T00:00:00.000Z" true None.

(** A directory of three responding validators, nothing sent yet. *)
Definition three_peers : World Service Body :=
  mkWorld (mkService [peerA; peerB; peerC] "localhost:3000" None) [] 0%nat.

(** A directory whose validators are all marked as not responding. *)
Definition no_active_peer : World Service Body :=
  mkWorld (mkService [set_isResponding false peerA] "localhost:3000" None) [] 0%nat.

(** A stand-in for [toISOString]: the number of milliseconds, printed. *)
Definition millis (t : Time) : string := pretty t.

(** Every request to [peerB] times out; every other request is answered
    with status 200. *)
Definition b_times_out : Env Body Data :=
  mkEnv (fun _ req =>
           if String.prefix "http://10.0.0.2:4000" (url req) then
             Errors (mkAxiosError "timeout of 10000ms exceeded")
           else Emits (mkResponse 200 (Opaque "ok")))
        (fun k => 1000 * Z.of_nat k).

(** The seed node cannot be reached. *)
Definition seed_unreachable : Env Body Data :=
  mkEnv (fun _ _ => Errors (mkAxiosError "connect ECONNREFUSED 127.0.0.1:3000"))
        (fun k => 1000 * Z.of_nat k).

Definition a_transaction : TransactionRequest :=
  mkTransaction "alice" "bob" 10 None None.

End ValidatorScenarios.

(** ** The remaining routes of the validators controller, and the events
    of the validators service *)

Module ValidatorsRoutes.
Import ValidatorsService ValidatorsController.

(** What [GET /validators] answers with. *)
Record ValidatorsListing := mkValidatorsListing {
  validators : list ValidatorNode;
  total : nat;
  active : nat }.

(** What [GET /validators/active] answers with. *)
Record ActiveListing := mkActiveListing {
  active_validators : list ValidatorNode;
  count : nat }.

(** What [POST /validators/refresh] answers with. *)
Record RefreshReport := mkRefreshReport {
  refresh_message : string;
  refreshed : list ValidatorNode;
  refresh_total : nat }.

(** What [GET /validators/ping/:address] answers with. *)
Record PingReport := mkPingReport {
  ping_address : string;
  responding : bool;
  ping_timestamp : string }.

Section Routes.
Variable env : Env Body Data.
Variable toISOString : Time -> string.

Local Abbreviation M := (@M Service Body).

Definition getValidators : M ValidatorsListing :=
  let* all := gets getValidatorNodes in
  let* again := gets getValidatorNodes in
  let* responding := gets getActiveValidatorNodes in
  ret (mkValidatorsListing all (length again) (length responding)).

Definition getActiveValidators : M ActiveListing :=
  let* responding := gets getActiveValidatorNodes in
  let* again := gets getActiveValidatorNodes in
  ret (mkActiveListing responding (length again)).

Definition refreshValidators : M RefreshReport :=
  let* validators := refreshValidatorNodes env in
  ret (mkRefreshReport "Validator nodes refreshed" validators (length validators)).

Definition pingValidator (address : string) : M PingReport :=
  let* isResponding := ValidatorsService.pingValidator env address in
  let* now := new_Date env in
  ret (mkPingReport address isResponding (toISOString now)).

(** *** Everything that can happen to a running validators service

    The lifecycle hooks, the health-check timer (which fires only while
    its handle is stored), and the routes of the controller. *)

Inductive Event :=
| ModuleInit
| HealthTimer
| ListAll
| ListActive
| Refresh
| Ping (address : string)
| Call (op : Operation)
| ModuleDestroy.

Definition after {A} (m : M A) (w : World Service Body) : World Service Body :=
  snd (m w).

Definition fire (e : Event) (w : World Service Body) : World Service Body :=
  match e with
  | ModuleInit => after (onModuleInit env) w
  | HealthTimer =>
      match healthCheckInterval (this w) with
      | Some _ => after (checkValidatorNodesHealth env toISOString) w
      | None => w
      end
  | ListAll => after getValidators w
  | ListActive => after getActiveValidators w
  | Refresh => after refreshValidators w
  | Ping address => after (pingValidator address) w
  | Call op => after (route_summary env toISOString op) w
  | ModuleDestroy => after onModuleDestroy w
  end.

Definition run (es : list Event) (w : World Service Body) : World Service Body :=
  foldl (fun w e => fire e w) w es.

(** The events that load the directory from the seed node. *)
Definition loads (e : Event) : bool :=
  match e with
  | ModuleInit | Refresh => true
  | _ => false
  end.

End Routes.

(** The world at start: the service as constructed, nothing sent. *)
Definition initial (seed : string) : World Service Body :=
  mkWorld (construct seed) [] 0%nat.

(** The two shapes of an outcome record: a success with its payload, or
    a failure with its error message. *)
Definition well_formed (r : ValidatorResponse) : Prop :=
  (success r = true /\ is_Some (ValidatorsService.data r) /\ error r = None) \/
  (success r = false /\ ValidatorsService.data r = None /\ is_Some (error r)).

End ValidatorsRoutes.

Module MoreScenarios.
Import P2pService.


End MoreScenarios.

Module MoreValidatorScenarios.
Import ValidatorsService ValidatorScenarios.

Definition a_relay : ValidatorNode :=
  mkNode "10.0.0.9:4000" "relay" "2025-01-01T00:00:00.000Z" true None.

(** The seed node lists a relay between two validators; the validators
    answer every request with status 200. *)
Definition seed_lists_a_relay : Env Body Data :=
  mkEnv (fun _ req =>
           if String.prefix "http://localhost:3000" (url req) then
             Emits (mkResponse 200 (Nodes [peerA; a_relay; peerC]))
           else Emits (mkResponse 200 (Opaque "ok")))
        (fun k => 1000 * Z.of_nat k).

(** No validator answers: every request errors. *)
Definition nobody_answers : Env Body Data :=
  mkEnv (fun _ _ => Errors (mkAxiosError "timeout of 5000ms exceeded"))
        (fun k => 1000 * Z.of_nat k).

(** The three validators with a running health-check timer. *)
Definition three_peers_watched : World Service Body :=
  mkWorld (mkService [peerA; peerB; peerC] "localhost:3000" (Some 0%nat)) [] 1%nat.

End MoreValidatorScenarios.

(** * Properties of the connection manager *)

Module P2pFacts.
Import P2pService.

Ltac unfold_methods :=
  unfold onModuleInit, onModuleDestroy, pingTick, reconnectTick,
    connectToSeedNode, registerWithSeedNode, pingSeedNode,
    getKnownNodes, getActiveNodes,
    handleConnectionFailure, startReconnectInterval, startPingInterval,
    stopReconnectInterval, stopPingInterval, seedUrl,
    firstValueFrom_rethrow, subscribe, new_Date, setInterval,
    try_catch, bind, ret, throw, gets, modify.

Section Facts.
Variable env : Env Body (list string).

Local Abbreviation World := (Async.World Service Body).

(** What a ping does, case by case. *)
Lemma pingSeedNode_eq (w : World) :
  pingSeedNode env w =
  let sent' := sent w ++ [pingRequest (this w)] in
  if ping_succeeds env w then
    (Return true,
     mkWorld (set_lastPingTime (Some (clock env (length sent')))
                (set_connected true (this w)))
       sent' (handles w))
  else
    (Return false, mkWorld (set_connected false (this w)) sent' (handles w)).
Proof.
  unfold ping_succeeds, pingRequest. unfold_methods. simpl.
  destruct (respond env _ _) as [r|e]; simpl; [|reflexivity].
  destruct (status r =? 200); reflexivity.
Qed.

Lemma registerWithSeedNode_eq (w : World) :
  registerWithSeedNode env w =
  let sent' := sent w ++ [registerRequest (this w)] in
  if registration_succeeds env w then
    (Return true,
     mkWorld (set_registrationStatus REGISTERED (this w)) sent' (handles w))
  else
    (Return false,
     mkWorld (set_registrationStatus FAILED (this w)) sent' (handles w)).
Proof.
  unfold registration_succeeds, registerRequest. unfold_methods. simpl.
  destruct (respond env _ _) as [r|e]; simpl; [|reflexivity].
  destruct (status r =? 201); simpl; [reflexivity|].
  destruct (status r =? 200); reflexivity.
Qed.

Lemma handleConnectionFailure_eq (w : World) :
  handleConnectionFailure w =
  match reconnectIntervalRef (this w) with
  | Some _ => (Return tt, mkWorld (set_connected false (this w)) (sent w) (handles w))
  | None =>
      (Return tt,
       mkWorld (set_reconnectIntervalRef (Some (handles w))
                  (set_connected false (this w)))
         (sent w) (S (handles w)))
  end.
Proof.
  destruct w as [[cfg addr c r t p a [h|]] snt n]; reflexivity.
Qed.

Lemma connectToSeedNode_eq (w : World) :
  connectToSeedNode env w =
  let w1 := snd (pingSeedNode env w) in
  if ping_succeeds env w then
    (Return true, snd (registerWithSeedNode env w1))
  else
    (Return false, snd (handleConnectionFailure w1)).
Proof.
  unfold connectToSeedNode at 1. unfold try_catch, bind at 1.
  rewrite pingSeedNode_eq. cbv zeta.
  destruct (ping_succeeds env w); simpl.
  - unfold bind. rewrite registerWithSeedNode_eq. cbv zeta.
    destruct (registration_succeeds env _); reflexivity.
  - unfold bind. rewrite handleConnectionFailure_eq. simpl.
    destruct (reconnectIntervalRef (this w)); reflexivity.
Qed.

Lemma stopReconnectInterval_eq (w : World) :
  stopReconnectInterval w =
  (Return tt, mkWorld (set_reconnectIntervalRef None (this w)) (sent w) (handles w)).
Proof.
  destruct w as [[cfg addr c r t p a [h|]] snt n]; reflexivity.
Qed.

(** A tick of the reconnect timer once the attempts are used up. *)
Lemma reconnectTick_exhausted (w : World) :
  maxReconnectAttempts (config (this w)) <= reconnectAttempts (this w) ->
  reconnectTick env w =
  (Return tt, mkWorld (set_reconnectIntervalRef None (this w)) (sent w) (handles w)).
Proof.
  intros Hge. rewrite <- stopReconnectInterval_eq.
  unfold reconnectTick, bind, gets at 1 2. simpl.
  destruct (Z.geb_spec (reconnectAttempts (this w))
              (maxReconnectAttempts (config (this w)))); [reflexivity | lia].
Qed.

(** A tick of the reconnect timer that attempts a connection. *)
Lemma reconnectTick_attempt (w : World) :
  reconnectAttempts (this w) < maxReconnectAttempts (config (this w)) ->
  reconnectTick env w =
  let w0 := mkWorld (set_reconnectAttempts (reconnectAttempts (this w) + 1) (this w))
              (sent w) (handles w) in
  let w1 := snd (connectToSeedNode env w0) in
  if connected (this w1) then
    (Return tt,
     mkWorld (set_reconnectAttempts 0 (set_reconnectIntervalRef None (this w1)))
       (sent w1) (handles w1))
  else (Return tt, w1).
Proof.
  intros Hlt. unfold reconnectTick, bind at 1 2, gets at 1 2. simpl.
  destruct (Z.geb_spec (reconnectAttempts (this w))
              (maxReconnectAttempts (config (this w)))); [lia|].
  unfold bind at 1, modify at 1. simpl.
  unfold bind at 1.
  destruct (connectToSeedNode env _) as [[b|e] w1] eqn:Hc.
  - simpl. unfold bind at 1, gets at 1.
    destruct (connected (this w1)); [|reflexivity].
    unfold bind. rewrite stopReconnectInterval_eq. reflexivity.
  - rewrite connectToSeedNode_eq in Hc. simpl in Hc.
    destruct (ping_succeeds env _); discriminate.
Qed.

Lemma ping_succeeds_frame (w : World) (s : Service) (n : nat) :
  config s = config (this w) ->
  ping_succeeds env (mkWorld s (sent w) n) = ping_succeeds env w.
Proof.
  intros Hc. unfold ping_succeeds, pingRequest. simpl. rewrite Hc. reflexivity.
Qed.

(** A firing of the reconnect timer whose attempt fails: one ping goes
    out, the counter grows by one, the timer stays. *)
Lemma fire_reconnect_failed (w : World) (h : nat) :
  reconnectIntervalRef (this w) = Some h ->
  reconnectAttempts (this w) < maxReconnectAttempts (config (this w)) ->
  ping_succeeds env w = false ->
  fire env ReconnectTimer w =
  mkWorld (set_connected false
             (set_reconnectAttempts (reconnectAttempts (this w) + 1) (this w)))
    (sent w ++ [pingRequest (this w)]) (handles w).
Proof.
  intros Href Hlt Hping. unfold fire, after. rewrite Href.
  rewrite reconnectTick_attempt by exact Hlt. cbv zeta.
  rewrite connectToSeedNode_eq. cbv zeta.
  rewrite ping_succeeds_frame by reflexivity. rewrite Hping.
  rewrite pingSeedNode_eq. cbv zeta.
  rewrite ping_succeeds_frame by reflexivity. rewrite Hping.
  cbn [snd]. rewrite handleConnectionFailure_eq. simpl.
  rewrite Href. reflexivity.
Qed.

(** A firing of the reconnect timer once the attempts are used up: the
    timer is cleared and nothing else changes. *)
Lemma fire_reconnect_exhausted (w : World) (h : nat) :
  reconnectIntervalRef (this w) = Some h ->
  maxReconnectAttempts (config (this w)) <= reconnectAttempts (this w) ->
  fire env ReconnectTimer w =
  mkWorld (set_reconnectIntervalRef None (this w)) (sent w) (handles w).
Proof.
  intros Href Hge. unfold fire, after. rewrite Href.
  rewrite reconnectTick_exhausted by exact Hge. reflexivity.
Qed.

(** A cleared reconnect timer does not fire. *)
Lemma run_reconnect_stopped (w : World) (m : nat) :
  reconnectIntervalRef (this w) = None ->
  run env (replicate m ReconnectTimer) w = w.
Proof.
  intros Href. induction m as [|m IH]; [reflexivity|].
  simpl. unfold run in IH. rewrite Href. exact IH.
Qed.

Lemma run_failed_attempts (n : nat) : forall (w : World) (h : nat),
  reconnectIntervalRef (this w) = Some h ->
  attempts_fail env n w = true ->
  let w1 := run env (replicate n ReconnectTimer) w in
  sent w1 = sent w ++ replicate n (pingRequest (this w)) /\
  reconnectAttempts (this w1) = reconnectAttempts (this w) + Z.of_nat n /\
  reconnectIntervalRef (this w1) = Some h /\
  config (this w1) = config (this w) /\
  handles w1 = handles w.
Proof.
  induction n as [|n IH]; intros w h Href Hfail.
  - simpl. rewrite app_nil_r. repeat split; auto; lia.
  - cbn [attempts_fail] in Hfail.
    apply andb_prop in Hfail as [Hfail Hrest].
    apply andb_prop in Hfail as [Hlt Hping].
    apply Z.ltb_lt in Hlt. apply negb_true_iff in Hping.
    pose proof (fire_reconnect_failed w h Href Hlt Hping) as Hfire.
    change (run env (replicate (S n) ReconnectTimer) w)
      with (run env (replicate n ReconnectTimer) (fire env ReconnectTimer w)).
    cbv zeta. specialize (IH (fire env ReconnectTimer w) h).
    rewrite Hfire in IH, Hrest |- *. simpl in IH.
    destruct (IH Href Hrest) as (Hs & Ha & Hr & Hc & Hh).
    rewrite Hs, Ha, Hr, Hc, Hh. unfold pingRequest at 2. simpl.
    repeat split; try reflexivity.
    + rewrite <- app_assoc. reflexivity.
    + lia.
Qed.

(** C4. Let [N] be the configured [maxReconnectAttempts].  From a state
    with the reconnect timer armed, after [N] consecutive firings in which
    a connection is attempted and fails, exactly [N] attempts (pings) have
    gone out and the counter has reached [N]; the next firing of the timer
    makes no attempt and clears the timer, whatever the seed node would
    answer; a cleared timer never fires, so no attempt comes from it any
    more; and failure handling arms a new timer. *)
Theorem reconnect_timer_gives_up (w : World) (h : nat) :
  let N := maxReconnectAttempts (config (this w)) in
  let n := Z.to_nat N in
  reconnectIntervalRef (this w) = Some h ->
  0 <= reconnectAttempts (this w) ->
  attempts_fail env n w = true ->
  let w1 := run env (replicate n ReconnectTimer) w in
  let w2 := fire env ReconnectTimer w1 in
  sent w1 = sent w ++ replicate n (pingRequest (this w)) /\
  N <= reconnectAttempts (this w1) /\
  sent w2 = sent w1 /\
  reconnectIntervalRef (this w2) = None /\
  (forall m, run env (replicate m ReconnectTimer) w2 = w2) /\
  reconnectIntervalRef (this (after handleConnectionFailure w2)) = Some (handles w2).
Proof.
  intros N n Href Hnonneg Hfail w1 w2.
  destruct (run_failed_attempts n w h Href Hfail) as (Hs & Ha & Hr & Hc & Hh).
  fold w1 in Hs, Ha, Hr, Hc, Hh.
  assert (Hge : maxReconnectAttempts (config (this w1)) <= reconnectAttempts (this w1)).
  { rewrite Hc, Ha. subst N n. lia. }
  assert (Hw2 : w2 = mkWorld (set_reconnectIntervalRef None (this w1)) (sent w1) (handles w1)).
  { subst w2. apply (fire_reconnect_exhausted w1 h Hr Hge). }
  assert (Hnone : reconnectIntervalRef (this w2) = None).
  { rewrite Hw2. reflexivity. }
  repeat split.
  - exact Hs.
  - subst N. rewrite <- Hc. exact Hge.
  - rewrite Hw2. reflexivity.
  - exact Hnone.
  - intros m. apply run_reconnect_stopped. exact Hnone.
  - unfold after. rewrite handleConnectionFailure_eq. rewrite Hnone. reflexivity.
Qed.

(** [connectToSeedNode] never throws, and fails exactly when its ping fails. *)
Lemma connect_fails_iff_ping_fails (w : World) :
  fst (connectToSeedNode env w) = Return false <-> ping_succeeds env w = false.
Proof.
  rewrite connectToSeedNode_eq. cbv zeta.
  destruct (ping_succeeds env w); simpl; split; congruence.
Qed.

(** *** What each event does to the counter, the timer and the configuration *)

Lemma connectToSeedNode_frame (w : World) :
  let w' := snd (connectToSeedNode env w) in
  config (this w') = config (this w) /\
  reconnectAttempts (this w') = reconnectAttempts (this w) /\
  (reconnectIntervalRef (this w') = None -> reconnectIntervalRef (this w) = None) /\
  (forall h, reconnectIntervalRef (this w) = Some h ->
             reconnectIntervalRef (this w') = Some h) /\
  connected (this w') = ping_succeeds env w.
Proof.
  rewrite connectToSeedNode_eq. cbv zeta. rewrite pingSeedNode_eq. cbv zeta.
  destruct (ping_succeeds env w); cbn [snd].
  - rewrite registerWithSeedNode_eq. cbv zeta.
    destruct (registration_succeeds env _); simpl; auto.
  - rewrite handleConnectionFailure_eq. simpl.
    destruct (reconnectIntervalRef (this w)) eqn:E; simpl; rewrite ?E;
      repeat split; auto; discriminate.
Qed.

Lemma startPingInterval_frame (w : World) :
  let w' := snd (startPingInterval w) in
  config (this w') = config (this w) /\
  reconnectAttempts (this w') = reconnectAttempts (this w) /\
  reconnectIntervalRef (this w') = reconnectIntervalRef (this w) /\
  connected (this w') = connected (this w).
Proof.
  destruct w as [[cfg addr c r t [p|] a h] snt n]; simpl; auto.
Qed.

Lemma onModuleInit_eq (w : World) :
  snd (onModuleInit env w) = snd (startPingInterval (snd (connectToSeedNode env w))).
Proof.
  unfold onModuleInit, bind at 1.
  destruct (connectToSeedNode env w) as [[b|e] w1] eqn:Hc; [reflexivity|].
  rewrite connectToSeedNode_eq in Hc. simpl in Hc.
  destruct (ping_succeeds env w); discriminate.
Qed.

Lemma pingTick_eq (w : World) :
  snd (pingTick env w) = snd (pingSeedNode env w).
Proof.
  unfold pingTick, bind. rewrite pingSeedNode_eq. cbv zeta.
  destruct (ping_succeeds env w); reflexivity.
Qed.

Lemma getKnownNodes_this (w : World) :
  this (snd (getKnownNodes env w)) = this w.
Proof.
  unfold_methods. simpl. destruct (connected (this w)); simpl; [|reflexivity].
  destruct (respond env _ _); reflexivity.
Qed.

Lemma getActiveNodes_this (w : World) :
  this (snd (getActiveNodes env w)) = this w.
Proof.
  unfold_methods. simpl. destruct (connected (this w)); simpl; [|reflexivity].
  destruct (respond env _ _); reflexivity.
Qed.

Lemma onModuleDestroy_frame (w : World) :
  let w' := snd (onModuleDestroy w) in
  config (this w') = config (this w) /\
  reconnectAttempts (this w') = reconnectAttempts (this w).
Proof.
  destruct w as [[cfg addr c r t [p|] a [h|]] snt n]; simpl; auto.
Qed.

(** Every event either leaves the counter alone, or is a firing of the
    active reconnect timer that attempts a connection: the counter then
    grows by one when the node is still disconnected and is reset when it
    is connected. *)
Lemma fire_effect (e : Event) (w : World) :
  let w' := fire env e w in
  let N := maxReconnectAttempts (config (this w)) in
  let a := reconnectAttempts (this w) in
  config (this w') = config (this w) /\
  ((reconnectAttempts (this w') = a /\
    (e <> ModuleDestroy -> reconnectIntervalRef (this w') = None ->
     reconnectIntervalRef (this w) = None \/ N <= a)) \/
   (e = ReconnectTimer /\ is_Some (reconnectIntervalRef (this w)) /\ a < N /\
    connected (this w') = false /\ reconnectAttempts (this w') = a + 1 /\
    reconnectIntervalRef (this w') = reconnectIntervalRef (this w)) \/
   (e = ReconnectTimer /\ is_Some (reconnectIntervalRef (this w)) /\ a < N /\
    connected (this w') = true /\ reconnectAttempts (this w') = 0 /\
    reconnectIntervalRef (this w') = None)).
Proof.
  cbv zeta. destruct e; unfold fire, after.
  - rewrite onModuleInit_eq.
    destruct (startPingInterval_frame (snd (connectToSeedNode env w))) as (Hc & Ha & Hr & _).
    destruct (connectToSeedNode_frame w) as (Hc' & Ha' & Hr' & _ & _).
    rewrite Hc, Ha, Hr, Hc', Ha'. split; [reflexivity|]. left. auto.
  - destruct (pingIntervalRef (this w)); [|split; auto].
    rewrite pingTick_eq, pingSeedNode_eq. cbv zeta.
    destruct (ping_succeeds env w); simpl; split; auto.
  - destruct (reconnectIntervalRef (this w)) as [h|] eqn:Href; [|split; auto].
    destruct (Z.lt_ge_cases (reconnectAttempts (this w))
                (maxReconnectAttempts (config (this w)))) as [Hlt|Hge].
    + rewrite reconnectTick_attempt by exact Hlt. cbv zeta.
      match goal with |- context [connectToSeedNode env ?w0] =>
        destruct (connectToSeedNode_frame w0) as (Hc & Ha & _ & Hr & _);
        destruct (connected (this (snd (connectToSeedNode env w0)))) eqn:Hconn
      end; simpl in *.
      * split; [exact Hc|]. right. right. repeat split; eauto.
      * split; [exact Hc|]. right. left. rewrite Hconn.
        repeat split; eauto.
    + rewrite reconnectTick_exhausted by exact Hge. simpl. split; auto.
  - rewrite getKnownNodes_this. split; auto.
  - rewrite getActiveNodes_this. split; auto.
  - destruct (onModuleDestroy_frame w) as (Hc & Ha). rewrite Hc, Ha.
    split; [reflexivity|]. left. split; [reflexivity|]. intros Hne. contradiction.
Qed.

Lemma run_snoc (es : list Event) (e : Event) (w : World) :
  run env (es ++ [e]) w = fire env e (run env es w).
Proof. unfold run. rewrite foldl_app. reflexivity. Qed.

(** The invariant of the counter, by induction on the events since start. *)
Lemma run_invariant (cfg : SeedNodeConfig) (addr : string) (es : list Event) :
  let w := run env es (initial cfg addr) in
  config (this w) = cfg /\
  0 <= reconnectAttempts (this w) <= Z.max 0 (maxReconnectAttempts cfg) /\
  (ModuleDestroy ∉ es -> reconnectIntervalRef (this w) = None ->
   reconnectAttempts (this w) = 0 \/
   maxReconnectAttempts cfg <= reconnectAttempts (this w)).
Proof.
  induction es as [|e es IH] using rev_ind; cbv zeta.
  - simpl. repeat split; auto; lia.
  - rewrite run_snoc. destruct IH as (Hcfg & Hbound & Hidle).
    destruct (fire_effect e (run env es (initial cfg addr))) as (Hc & Hcases).
    rewrite Hcfg in Hcases. rewrite Hc. split; [exact Hcfg|].
    destruct Hcases as [(Ha & Hstop) | [(_ & Hsome & Hlt & _ & Ha & Href)
                                       | (_ & _ & _ & _ & Ha & _)]].
    + rewrite Ha. split; [exact Hbound|]. intros Hnotin Hnone.
      apply not_elem_of_app in Hnotin as [Hnotin Hne].
      destruct Hstop as [Hwas | Hge]; auto.
      intros ->. apply Hne. constructor.
    + rewrite Ha, Href. split; [lia|]. intros _ Hnone.
      rewrite Hnone in Hsome. destruct Hsome as [? ?]. discriminate.
    + rewrite Ha. split; [lia|]. auto.
Qed.

(** X25. With each callback run to completion, in every state reached
    from the initial one [reconnectAttempts] is non-negative and never
    exceeds the configured maximum (0 for a negative maximum); until the
    service is shut down, a state without reconnect timer has the counter
    at 0 or at the maximum or beyond; the counter changes only in a
    firing of the active reconnect timer, by one increment or by a reset
    to 0; and a firing whose attempt leaves the node connected resets it
    to 0 and clears the timer. *)
Theorem reconnectAttempts_invariant (cfg : SeedNodeConfig) (addr : string)
    (es : list Event) :
  let N := maxReconnectAttempts cfg in
  let w := run env es (initial cfg addr) in
  let a := reconnectAttempts (this w) in
  0 <= a <= Z.max 0 N /\
  (ModuleDestroy ∉ es -> reconnectIntervalRef (this w) = None -> a = 0 \/ N <= a) /\
  (forall e, reconnectAttempts (this (fire env e w)) <> a ->
     e = ReconnectTimer /\ is_Some (reconnectIntervalRef (this w)) /\
     (reconnectAttempts (this (fire env e w)) = a + 1 \/
      reconnectAttempts (this (fire env e w)) = 0)) /\
  (is_Some (reconnectIntervalRef (this w)) -> a < N ->
   connected (this (fire env ReconnectTimer w)) = true ->
   reconnectAttempts (this (fire env ReconnectTimer w)) = 0 /\
   reconnectIntervalRef (this (fire env ReconnectTimer w)) = None).
Proof.
  cbv zeta.
  destruct (run_invariant cfg addr es) as (Hcfg & Hbound & Hidle).
  split; [exact Hbound|]. split; [exact Hidle|]. split.
  - intros e Hchg.
    destruct (fire_effect e (run env es (initial cfg addr)))
      as (_ & [(Ha & _) | [(He & Hsome & _ & _ & Ha & _)
                          | (He & Hsome & _ & _ & Ha & _)]]).
    + contradiction.
    + auto.
    + auto.
  - clear Hbound Hidle. generalize dependent (run env es (initial cfg addr)).
    intros w Hcfg [h Href] Hlt. rewrite <- Hcfg in Hlt.
    unfold fire, after. rewrite Href.
    rewrite reconnectTick_attempt by exact Hlt. cbv zeta.
    destruct (connected (this (snd (connectToSeedNode env _)))) eqn:Hc.
    + simpl. auto.
    + cbn [snd]. congruence.
Qed.

(** C6 (the code departs from the claim). The firing that stops the
    reconnect timer because the attempts are used up does not reset the
    counter, unlike the firing that stops it after a reconnect: the
    service is then idle, with no reconnect timer, and [reconnectAttempts]
    is still at its non-zero value.  The stale counter also disables the
    next round: when a later failure arms a new timer, its first firing
    finds the attempts used up and clears the timer without sending
    anything. *)
Theorem exhausted_timer_keeps_counter (w : World) (h : nat) :
  reconnectIntervalRef (this w) = Some h ->
  0 < reconnectAttempts (this w) ->
  maxReconnectAttempts (config (this w)) <= reconnectAttempts (this w) ->
  let w1 := fire env ReconnectTimer w in
  let w2 := after handleConnectionFailure w1 in
  let w3 := fire env ReconnectTimer w2 in
  reconnectIntervalRef (this w1) = None /\
  reconnectAttempts (this w1) = reconnectAttempts (this w) /\
  ~ idle_means_zero w1 /\
  reconnectIntervalRef (this w2) = Some (handles w) /\
  reconnectIntervalRef (this w3) = None /\
  reconnectAttempts (this w3) = reconnectAttempts (this w) /\
  sent w3 = sent w.
Proof.
  intros Href Hpos Hge. cbv zeta.
  rewrite (fire_reconnect_exhausted w h Href Hge).
  unfold after. rewrite handleConnectionFailure_eq. cbn [this sent handles snd].
  change (reconnectIntervalRef (set_reconnectIntervalRef None (this w))) with (@None nat).
  cbn [snd].
  erewrite fire_reconnect_exhausted; [|reflexivity|exact Hge].
  repeat split; try reflexivity.
  unfold idle_means_zero. simpl. intros Hzero. specialize (Hzero eq_refl). lia.
Qed.

(** C1 (the code departs from the claim). When the ping succeeds and the
    registration fails, [connectToSeedNode] does set [registrationStatus]
    to [FAILED], but it drops the result of [registerWithSeedNode]: it
    returns [true], leaves [connected] at [true] and starts no reconnect
    timer. *)
Theorem connect_drops_registration_failure (w : World) :
  ping_succeeds env w = true ->
  registration_succeeds env (snd (pingSeedNode env w)) = false ->
  let w' := snd (connectToSeedNode env w) in
  registrationStatus (this w') = FAILED /\
  fst (connectToSeedNode env w) = Return true /\
  connected (this w') = true /\
  reconnectIntervalRef (this w') = reconnectIntervalRef (this w) /\
  handles w' = handles w.
Proof.
  intros Hping Hreg. rewrite connectToSeedNode_eq. cbv zeta.
  rewrite Hping. cbn [fst snd].
  rewrite registerWithSeedNode_eq. cbv zeta. rewrite Hreg.
  rewrite pingSeedNode_eq. cbv zeta. rewrite Hping. simpl. auto.
Qed.

(** C2 (the code departs from the claim). A failing ping sets [connected]
    to [false] and returns [false], but failure handling never runs: the
    reconnect timer is left as it was and no timer is created, also when
    the node was connected before the call. *)
Theorem ping_failure_starts_no_reconnect (w : World) :
  ping_succeeds env w = false ->
  let w' := snd (pingSeedNode env w) in
  fst (pingSeedNode env w) = Return false /\
  connected (this w') = false /\
  reconnectIntervalRef (this w') = reconnectIntervalRef (this w) /\
  handles w' = handles w.
Proof.
  intros Hping. rewrite pingSeedNode_eq. cbv zeta. rewrite Hping.
  simpl. auto.
Qed.

(** C10. While [connected] is false, [getKnownNodes] and [getActiveNodes]
    return the empty list and leave the world as it is: no request is
    sent, whatever the seed node would answer.  The value does not tell
    this situation apart from a seed node that knows no node: a connected
    node, in any environment, whose seed node answers the request with an
    empty list returns the same value. *)
Theorem node_lists_empty_when_disconnected (w : World) :
  connected (this w) = false ->
  getKnownNodes env w = (Return [], w) /\
  getActiveNodes env w = (Return [], w) /\
  (forall (env2 : Env Body (list string)) (w2 : World) (st : Z),
     connected (this w2) = true ->
     respond env2 (length (sent w2))
       (mkRequest GET ("http://" +:+ seedNodeAddress (config (this w2)) +:+ "/nodes")
          None [] None) = Emits (mkResponse st []) ->
     fst (getKnownNodes env2 w2) = fst (getKnownNodes env w)) /\
  (forall (env2 : Env Body (list string)) (w2 : World) (st : Z),
     connected (this w2) = true ->
     respond env2 (length (sent w2))
       (mkRequest GET ("http://" +:+ seedNodeAddress (config (this w2)) +:+ "/nodes/active")
          None [] None) = Emits (mkResponse st []) ->
     fst (getActiveNodes env2 w2) = fst (getActiveNodes env w)).
Proof.
  intros Hoff.
  assert (H1 : getKnownNodes env w = (Return [], w)).
  { unfold_methods. simpl. rewrite Hoff. reflexivity. }
  assert (H2 : getActiveNodes env w = (Return [], w)).
  { unfold_methods. simpl. rewrite Hoff. reflexivity. }
  rewrite H1, H2. repeat split.
  - intros env2 w2 st Hon Hnodes.
    unfold_methods. simpl. rewrite Hon. simpl. rewrite Hnodes. reflexivity.
  - intros env2 w2 st Hon Hactive.
    unfold_methods. simpl. rewrite Hon. simpl. rewrite Hactive. reflexivity.
Qed.

End Facts.

Import Scenarios.

(** The seed node answers the ping and refuses the registration with
    HTTP 500: [connectToSeedNode] reports success and the node counts as
    connected, with no reconnect timer. *)
Lemma connect_drops_registration_failure_witness :
  let env := seed_refuses_registration in
  let w := initial five_attempts this_node in
  ping_succeeds env w = true /\
  registration_succeeds env (snd (pingSeedNode env w)) = false /\
  (registrationStatus (this (snd (connectToSeedNode env w))) = FAILED /\
   fst (connectToSeedNode env w) = Return true /\
   connected (this (snd (connectToSeedNode env w))) = true /\
   reconnectIntervalRef (this (snd (connectToSeedNode env w))) = None /\
   handles (snd (connectToSeedNode env w)) = 0%nat).
Proof.
  cbv zeta. split; [reflexivity|]. split; [reflexivity|].
  apply (connect_drops_registration_failure seed_refuses_registration
           (initial five_attempts this_node)); reflexivity.
Defined.

(** A node that started successfully and then loses the seed node: the
    failing ping turns [connected] off and no reconnect timer appears. *)
Lemma ping_failure_starts_no_reconnect_witness :
  let env := seed_lost_after_start in
  let w := run env [ModuleInit] (initial five_attempts this_node) in
  connected (this w) = true /\
  reconnectIntervalRef (this w) = None /\
  ping_succeeds env w = false /\
  (fst (pingSeedNode env w) = Return false /\
   connected (this (snd (pingSeedNode env w))) = false /\
   reconnectIntervalRef (this (snd (pingSeedNode env w))) = None /\
   handles (snd (pingSeedNode env w)) = 1%nat).
Proof.
  cbv zeta. split; [reflexivity|]. split; [reflexivity|]. split; [reflexivity|].
  apply (ping_failure_starts_no_reconnect seed_lost_after_start
           (run seed_lost_after_start [ModuleInit] (initial five_attempts this_node)));
    reflexivity.
Defined.

(** A node whose seed node is unreachable, and has been from the start,
    against a connected node whose seed node knows no node. *)
Lemma node_lists_empty_when_disconnected_witness :
  let w := run seed_down [ModuleInit] (initial five_attempts this_node) in
  let w2 := run seed_up [ModuleInit] (initial five_attempts this_node) in
  connected (this w) = false /\
  getKnownNodes seed_down w = (Return [], w) /\
  getActiveNodes seed_down w = (Return [], w) /\
  connected (this w2) = true /\
  fst (getKnownNodes seed_up w2) = fst (getKnownNodes seed_down w) /\
  fst (getActiveNodes seed_up w2) = fst (getActiveNodes seed_down w).
Proof.
  cbv zeta.
  destruct (node_lists_empty_when_disconnected seed_down
              (run seed_down [ModuleInit] (initial five_attempts this_node)) eq_refl)
    as (Hknown & Hactive & Hsame & Hsame').
  split; [reflexivity|]. split; [exact Hknown|]. split; [exact Hactive|].
  split; [reflexivity|]. split.
  - apply (Hsame seed_up _ 200); reflexivity.
  - apply (Hsame' seed_up _ 200); reflexivity.
Defined.

(** Two attempts allowed, seed node down: the start arms the timer, two
    firings ping and fail, the third firing clears the timer. *)
Lemma reconnect_timer_gives_up_witness :
  let env := seed_down in
  let w := run env [ModuleInit] (initial two_attempts this_node) in
  let w1 := run env [ReconnectTimer; ReconnectTimer] w in
  let w2 := fire env ReconnectTimer w1 in
  reconnectIntervalRef (this w) = Some 0%nat /\
  0 <= reconnectAttempts (this w) /\
  attempts_fail env 2 w = true /\
  (sent w1 = sent w ++ replicate 2 (pingRequest (this w)) /\
   2 <= reconnectAttempts (this w1) /\
   sent w2 = sent w1 /\
   reconnectIntervalRef (this w2) = None /\
   (forall m, run env (replicate m ReconnectTimer) w2 = w2) /\
   reconnectIntervalRef (this (after handleConnectionFailure w2)) = Some (handles w2)).
Proof.
  cbv zeta. split; [reflexivity|]. split; [vm_compute; discriminate|].
  split; [reflexivity|].
  apply (reconnect_timer_gives_up seed_down
           (run seed_down [ModuleInit] (initial two_attempts this_node)) 0%nat);
    [reflexivity | vm_compute; discriminate | reflexivity].
Defined.

(** The run behind C6: with one attempt allowed and the seed node down,
    the start arms the timer, the first firing uses the attempt up, the
    second firing stops the timer; the service then has no reconnect
    timer and the counter is still 1. *)
Lemma idle_counter_not_reset :
  let w := run seed_down [ModuleInit; ReconnectTimer; ReconnectTimer]
             (initial one_attempt this_node) in
  reconnectIntervalRef (this w) = None /\
  reconnectAttempts (this w) = 1 /\
  ~ idle_means_zero w.
Proof.
  cbv zeta. split; [reflexivity|]. split; [reflexivity|].
  unfold idle_means_zero. intros H. specialize (H eq_refl).
  vm_compute in H. discriminate.
Qed.

(** One attempt allowed, seed node down: the attempts are used up, the
    timer stops with the counter at 1, and a timer armed afterwards stops
    at its first firing with nothing sent. *)
Lemma exhausted_timer_keeps_counter_witness :
  let env := seed_down in
  let w := run env [ModuleInit; ReconnectTimer] (initial one_attempt this_node) in
  let w1 := fire env ReconnectTimer w in
  let w2 := after handleConnectionFailure w1 in
  let w3 := fire env ReconnectTimer w2 in
  reconnectIntervalRef (this w) = Some 0%nat /\
  0 < reconnectAttempts (this w) /\
  maxReconnectAttempts (config (this w)) <= reconnectAttempts (this w) /\
  (reconnectIntervalRef (this w1) = None /\
   reconnectAttempts (this w1) = 1 /\
   ~ idle_means_zero w1 /\
   reconnectIntervalRef (this w2) = Some 2%nat /\
   reconnectIntervalRef (this w3) = None /\
   reconnectAttempts (this w3) = 1 /\
   sent w3 = sent w).
Proof.
  cbv zeta. split; [reflexivity|]. split; [vm_compute; reflexivity|].
  split; [vm_compute; discriminate|].
  apply (exhausted_timer_keeps_counter seed_down
           (run seed_down [ModuleInit; ReconnectTimer] (initial one_attempt this_node))
           0%nat);
    [reflexivity | vm_compute; reflexivity | vm_compute; discriminate].
Defined.

Lemma reconnectAttempts_invariant_witness :
  let es := [ModuleInit; ReconnectTimer; ReconnectTimer] in
  let w := run seed_down es (initial one_attempt this_node) in
  (ModuleDestroy ∉ es) /\
  reconnectIntervalRef (this w) = None /\
  (reconnectAttempts (this w) = 0 \/ 1 <= reconnectAttempts (this w)).
Proof.
  cbv zeta.
  assert (Hnotin : ModuleDestroy ∉ [ModuleInit; ReconnectTimer; ReconnectTimer]).
  { rewrite !not_elem_of_cons. repeat split; try discriminate.
    apply not_elem_of_nil. }
  split; [exact Hnotin|]. split; [reflexivity|].
  apply (proj1 (proj2 (reconnectAttempts_invariant seed_down one_attempt this_node
                         [ModuleInit; ReconnectTimer; ReconnectTimer])));
    [exact Hnotin | reflexivity].
Defined.

End P2pFacts.

(** * Properties of the peer directory and of the fan-out *)

Module ValidatorsFacts.
Import ValidatorsService.

Ltac unfold_methods :=
  unfold loadValidatorNodes, refreshValidatorNodes, pingValidator,
    array_filter, assign, healthCheck, dispatch, collect,
    firstValueFrom_rethrow, firstValueFrom_recover, subscribe, new_Date,
    try_catch, bind, ret, throw, gets, modify.

Section Facts.
Variable env : Env Body Data.
Variable toISOString : Time -> string.

Local Abbreviation World := (Async.World Service Body).

(** *** Loading the directory *)

Lemma loadValidatorNodes_fails (w : World) :
  load_fails env w = true ->
  loadValidatorNodes env w =
  (Return [], mkWorld (this w) (sent w ++ [loadRequest (this w)]) (handles w)).
Proof.
  unfold load_fails, loadRequest. unfold_methods. simpl.
  destruct (respond env _ _) as [r|e]; simpl; [|reflexivity].
  destruct (Http.data r); [discriminate | reflexivity].
Qed.

Lemma loadValidatorNodes_succeeds (w : World) (r : Response Data)
    (allNodes : list ValidatorNode) :
  respond env (length (sent w)) (loadRequest (this w)) = Emits r ->
  Http.data r = Nodes allNodes ->
  loadValidatorNodes env w =
  let validators := filter (fun node => nodeType node = "validator") allNodes in
  (Return validators,
   mkWorld (set_validatorNodes validators (this w))
     (sent w ++ [loadRequest (this w)]) (handles w)).
Proof.
  unfold loadRequest. unfold_methods. simpl. intros -> ->. simpl.
  assert (Hf : filter (fun node => String.eqb (nodeType node) "validator" = true) allNodes
               = filter (fun node => nodeType node = "validator") allNodes).
  { apply list_filter_iff. intros x. apply String.eqb_eq. }
  rewrite Hf. reflexivity.
Qed.

(** C5. A load or refresh that fails, because the request to the seed
    node errors or because the payload is not a list, returns the empty
    list and leaves every field of the service, the cached collection
    among them, as it was. *)
Theorem failed_load_keeps_collection (w : World) :
  load_fails env w = true ->
  fst (loadValidatorNodes env w) = Return [] /\
  this (snd (loadValidatorNodes env w)) = this w /\
  getValidatorNodes (this (snd (loadValidatorNodes env w))) = getValidatorNodes (this w) /\
  fst (refreshValidatorNodes env w) = Return [] /\
  this (snd (refreshValidatorNodes env w)) = this w.
Proof.
  intros Hfail. unfold refreshValidatorNodes.
  rewrite (loadValidatorNodes_fails w Hfail). simpl. auto.
Qed.

(** *** The active peers *)

Lemma sublist_filter_mono {A} (P : A -> Prop) `{forall x, Decision (P x)}
    (l k : list A) :
  sublist l k -> sublist (filter P l) (filter P k).
Proof.
  induction 1 as [|x l k _ IH|x l k _ IH].
  - constructor.
  - rewrite !filter_cons. destruct (decide (P x)); [constructor|]; exact IH.
  - rewrite filter_cons. destruct (decide (P x)); [constructor|]; exact IH.
Qed.

(** C9. [getActiveValidatorNodes] returns the records of the collection
    that are responding, in the order of the collection: the result is a
    subsequence of the collection, a record is in it exactly when it is
    in the collection with [isResponding] set, and every subsequence of
    the collection made of responding records is a subsequence of it. *)
Theorem active_peers_are_the_responding_ones (s : Service) :
  sublist (getActiveValidatorNodes s) (getValidatorNodes s) /\
  (forall node, node ∈ getActiveValidatorNodes s <->
                node ∈ getValidatorNodes s /\ isResponding node = true) /\
  (forall l, sublist l (getValidatorNodes s) ->
             Forall (fun node => isResponding node = true) l ->
             sublist l (getActiveValidatorNodes s)).
Proof.
  unfold getActiveValidatorNodes, getValidatorNodes. repeat split.
  - apply sublist_filter.
  - apply list_elem_of_filter in H. tauto.
  - apply list_elem_of_filter in H. tauto.
  - intros [Hin Hresp]. apply list_elem_of_filter. auto.
  - intros l Hsub Hall.
    replace l with (filter (fun node => isResponding node = true) l).
    + apply sublist_filter_mono. exact Hsub.
    + induction Hall as [|x l Hx _ IH]; [reflexivity|].
      rewrite filter_cons. destruct (decide (isResponding x = true)); [|contradiction].
      f_equal. apply IH.
      eapply sublist_cons_l in Hsub as (k1 & k2 & -> & Hsub).
      etransitivity; [exact Hsub|]. apply sublist_inserts_l. constructor. reflexivity.
Qed.

(** *** The health-check sweep *)

Lemma pingValidator_eq (validatorAddress : string) (w : World) :
  pingValidator env validatorAddress w =
  (Return (probe_succeeds env (length (sent w)) validatorAddress),
   mkWorld (this w) (sent w ++ [probeRequest validatorAddress]) (handles w)).
Proof.
  unfold probe_succeeds, probeRequest. unfold_methods. simpl.
  destruct (respond env _ _) as [r|e]; reflexivity.
Qed.

Lemma length_snoc {A} (l : list A) (x : A) : length (l ++ [x]) = S (length l).
Proof. rewrite length_app. simpl. lia. Qed.

(** One callback of the sweep: one probe goes out and the record at
    position [i] is updated by the result. *)
Lemma healthCheck_eq (i : nat) (node : ValidatorNode) (w : World) :
  healthCheck env toISOString i node w =
  let k := length (sent w) in
  let update n :=
    if probe_succeeds env k (address node) then
      set_lastSeen (toISOString (clock env (S k))) (set_isResponding true n)
    else set_isResponding false n in
  (Return tt,
   mkWorld (set_validatorNodes (alter update i (validatorNodes (this w))) (this w))
     (sent w ++ [probeRequest (address node)]) (handles w)).
Proof.
  unfold healthCheck, try_catch, bind at 1. rewrite pingValidator_eq. cbv zeta.
  destruct (probe_succeeds env _ _); unfold_methods; simpl.
  - rewrite length_snoc, list_alter_alter_eq. reflexivity.
  - reflexivity.
Qed.

Lemma allSettled_map_cons {X A} (f : X -> @M Service Body A) (x : X)
    (xs : list X) (w : World) :
  allSettled_map f (x :: xs) w =
  (fst (settle (f x) w) :: fst (allSettled_map f xs (snd (settle (f x) w))),
   snd (allSettled_map f xs (snd (settle (f x) w)))).
Proof.
  simpl. destruct (settle (f x) w) as [r w1]. simpl.
  destruct (allSettled_map f xs w1) as [rs w2]. reflexivity.
Qed.

(** The sweep over the records [xs] that follow the prefix [pre]. *)
Lemma sweep_from (xs : list ValidatorNode) : forall (pre : list ValidatorNode) (w : World),
  validatorNodes (this w) = pre ++ xs ->
  let w' := snd (allSettled_map (fun p => healthCheck env toISOString (fst p) (snd p))
                   (imap (fun j x => (length pre + j, x)%nat) xs) w) in
  this w' =
    set_validatorNodes
      (pre ++ imap (fun j x => swept env toISOString (length (sent w) + j) x) xs)
      (this w) /\
  sent w' = sent w ++ ((fun x => probeRequest (address x)) <$> xs) /\
  handles w' = handles w.
Proof.
  induction xs as [|x xs IH]; intros pre w Hnodes; cbv zeta.
  - simpl. rewrite !app_nil_r in *. rewrite <- Hnodes.
    destruct w as [[ns seed hc] snt n]. auto.
  - rewrite imap_cons, allSettled_map_cons. cbn [snd fst].
    unfold settle. rewrite healthCheck_eq. cbv zeta. cbn [snd fst].
    rewrite Hnodes, alter_app_r. cbn [alter list_alter].
    match goal with |- context [allSettled_map _ _ ?w1] => set (w1' := w1) end.
    specialize (IH (pre ++ [swept env toISOString (length (sent w)) x]) w1').
    assert (Himap : imap ((fun j y => (length pre + j, y)%nat) ∘ S) xs =
                    imap (fun j y =>
                      (length (pre ++ [swept env toISOString (length (sent w)) x]) + j,
                       y)%nat) xs).
    { apply imap_ext. intros j y _. simpl. rewrite length_snoc. f_equal. lia. }
    rewrite Himap. cbv zeta in IH.
    destruct IH as (Hthis & Hsent & Hh).
    { subst w1'. simpl. rewrite <- app_assoc. reflexivity. }
    split; [|split].
    + rewrite Hthis. subst w1'. cbn [this sent handles].
      rewrite imap_cons, <- app_assoc, length_snoc, Nat.add_0_r.
      unfold set_validatorNodes. cbn [seedNodeAddress healthCheckInterval].
      f_equal. f_equal. cbn [app]. f_equal.
      apply imap_ext. intros j y _. cbn. f_equal. lia.
    + rewrite Hsent. subst w1'. cbn [this sent handles].
      rewrite <- app_assoc. reflexivity.
    + rewrite Hh. reflexivity.
Qed.

Lemma checkValidatorNodesHealth_eq (w : World) :
  checkValidatorNodesHealth env toISOString w =
  (Return tt,
   mkWorld
     (set_validatorNodes
        (imap (fun j x => swept env toISOString (length (sent w) + j) x)
           (validatorNodes (this w)))
        (this w))
     (sent w ++ ((fun x => probeRequest (address x)) <$> validatorNodes (this w)))
     (handles w)).
Proof.
  unfold checkValidatorNodesHealth, bind at 1, gets at 1.
  unfold bind, await_allSettled.
  destruct (sweep_from (validatorNodes (this w)) [] w eq_refl) as (Hthis & Hsent & Hh).
  simpl in Hthis, Hsent, Hh.
  destruct (allSettled_map _ _ w) as [rs w'] eqn:Hrun. simpl in *.
  destruct w' as [s' snt' h']. simpl in *. subst. reflexivity.
Qed.

(** C7. The sweep completes, sends one probe per record, keeps the number
    of records, and for the record at each position: address, type and
    version are kept; when its probe is not answered with status 200
    (error, timeout, other status), [isResponding] becomes false and
    [lastSeen] is kept; when its probe is answered with 200,
    [isResponding] becomes true and [lastSeen] is the time read after
    that probe.  The new record at a position depends on the old record
    and on the probe of that position only. *)
Theorem health_sweep_updates_each_record (w : World) :
  let nodes := validatorNodes (this w) in
  let w' := snd (checkValidatorNodesHealth env toISOString w) in
  let nodes' := validatorNodes (this w') in
  fst (checkValidatorNodesHealth env toISOString w) = Return tt /\
  sent w' = sent w ++ ((fun node => probeRequest (address node)) <$> nodes) /\
  length nodes' = length nodes /\
  forall (i : nat) (node : ValidatorNode),
    nodes !! i = Some node ->
    exists node',
      nodes' !! i = Some node' /\
      address node' = address node /\
      nodeType node' = nodeType node /\
      version node' = version node /\
      (probe_succeeds env (length (sent w) + i) (address node) = false ->
       isResponding node' = false /\ lastSeen node' = lastSeen node) /\
      (probe_succeeds env (length (sent w) + i) (address node) = true ->
       isResponding node' = true /\
       lastSeen node' = toISOString (clock env (S (length (sent w) + i)))).
Proof.
  cbv zeta. rewrite checkValidatorNodesHealth_eq. simpl.
  split; [reflexivity|]. split; [reflexivity|]. split; [apply length_imap|].
  intros i node Hi. eexists. split.
  - rewrite list_lookup_imap, Hi. reflexivity.
  - unfold swept. destruct (probe_succeeds env _ _); simpl;
      repeat split; auto; discriminate.
Qed.

(** *** The fan-out *)

(** One dispatch: one request goes out, and the callback returns the
    outcome record, whether the request succeeds or errors. *)
Lemma dispatch_eq (mk : string -> Request Body) (validator : ValidatorNode)
    (w : World) :
  dispatch env toISOString mk validator w =
  (Return (outcome env toISOString (length (sent w)) mk validator),
   mkWorld (this w) (sent w ++ [mk (address validator)]) (handles w)).
Proof.
  unfold outcome. unfold_methods. simpl.
  destruct (respond env _ _) as [r|e]; simpl; rewrite length_snoc; reflexivity.
Qed.

(** All dispatches settle fulfilled, in the order of the peers. *)
Lemma allSettled_dispatch (mk : string -> Request Body)
    (xs : list ValidatorNode) : forall w : World,
  allSettled_map (dispatch env toISOString mk) xs w =
  (fulfilled <$> imap (fun j v => outcome env toISOString (length (sent w) + j) mk v) xs,
   mkWorld (this w) (sent w ++ ((fun v => mk (address v)) <$> xs)) (handles w)).
Proof.
  induction xs as [|x xs IH]; intros w.
  - simpl. rewrite app_nil_r. destruct w; reflexivity.
  - rewrite allSettled_map_cons. unfold settle. rewrite dispatch_eq.
    cbn [fst snd]. rewrite IH. cbn [fst snd this sent handles].
    rewrite imap_cons, length_snoc, Nat.add_0_r, <- app_assoc.
    f_equal. cbn [fmap list_fmap]. do 2 f_equal.
    apply imap_ext. intros j y _. cbn. f_equal. lia.
Qed.

Lemma traverse_collect (rs : list ValidatorResponse) (w : World) :
  traverse (collect env toISOString) (fulfilled <$> rs) w = (Return rs, w).
Proof.
  induction rs as [|r rs IH]; [reflexivity|].
  cbn [fmap list_fmap traverse]. unfold bind at 1. cbn [collect].
  unfold ret at 1. unfold bind at 1. cbn [fmap list_fmap] in IH.
  rewrite IH. reflexivity.
Qed.

Lemma broadcast_nobody (mk : string -> Request Body) (w : World) :
  getActiveValidatorNodes (this w) = [] ->
  broadcast env toISOString mk w = (Return [], w).
Proof.
  intros Hnone. unfold broadcast, bind, gets. rewrite Hnone. reflexivity.
Qed.

Lemma broadcast_eq (mk : string -> Request Body) (w : World) :
  getActiveValidatorNodes (this w) <> [] ->
  broadcast env toISOString mk w =
  let active := getActiveValidatorNodes (this w) in
  (Return (imap (fun j v => outcome env toISOString (length (sent w) + j) mk v) active),
   mkWorld (this w) (sent w ++ ((fun v => mk (address v)) <$> active)) (handles w)).
Proof.
  intros Hsome. unfold broadcast, bind at 1, gets at 1.
  destruct (getActiveValidatorNodes (this w)) as [|v vs] eqn:Hactive; [contradiction|].
  cbn [length Nat.eqb]. unfold bind, await_allSettled.
  rewrite allSettled_dispatch. rewrite traverse_collect. reflexivity.
Qed.

End Facts.

Import ValidatorScenarios.

(** The seed node cannot be reached: the refresh returns the empty list
    and the three cached validators stay. *)
Lemma failed_load_keeps_collection_witness :
  let env := seed_unreachable in
  let w := three_peers in
  load_fails env w = true /\
  (fst (loadValidatorNodes env w) = Return [] /\
   this (snd (loadValidatorNodes env w)) = this w /\
   getValidatorNodes (this (snd (loadValidatorNodes env w))) = [peerA; peerB; peerC] /\
   fst (refreshValidatorNodes env w) = Return [] /\
   this (snd (refreshValidatorNodes env w)) = this w).
Proof.
  cbv zeta. split; [reflexivity|].
  apply (failed_load_keeps_collection seed_unreachable three_peers). reflexivity.
Defined.

(** Three validators, the probe of the second one times out: it is marked
    as not responding and its [lastSeen] stays. *)
Lemma health_sweep_updates_each_record_witness :
  let env := b_times_out in
  let w := three_peers in
  validatorNodes (this w) !! 1%nat = Some peerB /\
  probe_succeeds env 1 (address peerB) = false /\
  exists node',
    validatorNodes (this (snd (checkValidatorNodesHealth env millis w))) !! 1%nat
      = Some node' /\
    address node' = address peerB /\
    isResponding node' = false /\
    lastSeen node' = lastSeen peerB.
Proof.
  cbv zeta. split; [reflexivity|]. split; [reflexivity|].
  destruct (proj2 (proj2 (proj2
              (health_sweep_updates_each_record b_times_out millis three_peers)))
              1%nat peerB eq_refl)
    as (node' & Hlookup & Haddr & _ & _ & Hfail & _).
  exists node'. destruct (Hfail eq_refl) as [Hresp Hseen]. auto.
Defined.

Lemma active_peers_are_the_responding_ones_witness :
  let s := mkService [peerA; set_isResponding false peerB; peerC] "localhost:3000" None in
  sublist [peerC] (getValidatorNodes s) /\
  Forall (fun node => isResponding node = true) [peerC] /\
  sublist [peerC] (getActiveValidatorNodes s).
Proof.
  cbv zeta.
  assert (Hsub : sublist [peerC]
            (getValidatorNodes
               (mkService [peerA; set_isResponding false peerB; peerC]
                  "localhost:3000" None))).
  { do 2 apply sublist_cons. apply sublist_skip. apply sublist_nil. }
  assert (Hall : Forall (fun node => isResponding node = true) [peerC]).
  { repeat constructor. }
  split; [exact Hsub|]. split; [exact Hall|].
  apply (proj2 (proj2 (active_peers_are_the_responding_ones _)) _ Hsub Hall).
Defined.

End ValidatorsFacts.

(** * Properties of the broadcast routes *)

Module BroadcastFacts.
Import ValidatorsService ValidatorsController ValidatorsFacts.

Section Facts.
Variable env : Env Body Data.
Variable toISOString : Time -> string.

Local Abbreviation World := (Async.World Service Body).

(** The five methods of the service are one fan-out with five requests. *)
Lemma service_call_eq (op : Operation) :
  service_call env toISOString op = broadcast env toISOString (request_of op).
Proof. destruct op; reflexivity. Qed.

Lemma route_summary_eq (op : Operation) (w : World) :
  route_summary env toISOString op w =
  match broadcast env toISOString (request_of op) w with
  | (Return rs, w') => (Return (rs, count_success rs, length rs), w')
  | (Throw e, w') => (Throw e, w')
  end.
Proof.
  rewrite <- service_call_eq.
  destruct op; cbn [route_summary service_call];
    unfold sendTransaction, sendBatchTransactions, sendCriticalProcess,
      getBlockchainStatus, getMempoolStatus, bind;
    match goal with |- context [match ?c w with _ => _ end] =>
      destruct (c w) as [[rs|e] w']
    end; reflexivity.
Qed.

Lemma outcome_address (k : nat) (mk : string -> Request Body) (v : ValidatorNode) :
  validatorAddress (outcome env toISOString k mk v) = address v.
Proof. unfold outcome. destruct (respond env _ _); reflexivity. Qed.

Lemma outcome_success (k : nat) (mk : string -> Request Body) (v : ValidatorNode) :
  success (outcome env toISOString k mk v) = dispatch_succeeds env k (mk (address v)).
Proof. unfold outcome, dispatch_succeeds. destruct (respond env _ _); reflexivity. Qed.

(** The success count is the number of dispatches that were answered. *)
Lemma count_success_outcomes (mk : string -> Request Body)
    (xs : list ValidatorNode) : forall b : nat,
  count_success (imap (fun j v => outcome env toISOString (b + j) mk v) xs) =
  length (filter (fun p => dispatch_succeeds env (fst p) (mk (address (snd p))) = true)
            (imap (fun j v => ((b + j)%nat, v)) xs)).
Proof.
  unfold count_success. induction xs as [|x xs IH]; intros b; [reflexivity|].
  rewrite !imap_cons, !filter_cons. cbn [fst snd].
  rewrite outcome_success.
  assert (H1 : imap ((fun j v => outcome env toISOString (b + j) mk v) ∘ S) xs =
               imap (fun j v => outcome env toISOString (S b + j) mk v) xs).
  { apply imap_ext. intros j y _. cbn. f_equal. lia. }
  assert (H2 : imap ((fun j v => ((b + j)%nat, v)) ∘ S) xs =
               imap (fun j v => ((S b + j)%nat, v)) xs).
  { apply imap_ext. intros j y _. cbn. f_equal. lia. }
  rewrite H1, H2.
  destruct (decide (dispatch_succeeds env (b + 0) (mk (address x)) = true));
    cbn [length]; rewrite IH; reflexivity.
Qed.

(** A broadcast over a non-empty list reports as many outcomes as there
    are active peers. *)
Lemma route_summary_nonempty (op : Operation) (w : World) :
  getActiveValidatorNodes (this w) <> [] ->
  exists rs n w',
    route_summary env toISOString op w = (Return (rs, n, length rs), w') /\
    length rs = length (getActiveValidatorNodes (this w)).
Proof.
  intros Hsome. rewrite route_summary_eq, (broadcast_eq env toISOString _ w Hsome).
  cbv zeta beta iota. eexists. eexists. eexists.
  split; [reflexivity | apply length_imap].
Qed.

(** C3. A broadcast of any of the five kinds over a non-empty list of
    active peers sends one request per peer and returns normally with
    one outcome per peer, in the order of the peers: the outcome at each
    position carries the address of the peer at that position and is a
    success exactly when that peer's request was answered (an error, a
    timeout or a refused connection gives a failure record); the success
    count the route reports is the number of answered requests and the
    total is the number of peers. *)
Theorem broadcast_one_outcome_per_peer (op : Operation) (w : World) :
  let active := getActiveValidatorNodes (this w) in
  let b := length (sent w) in
  active <> [] ->
  exists (rs : list ValidatorResponse) (w' : World),
    service_call env toISOString op w = (Return rs, w') /\
    sent w' = sent w ++ ((fun v => request_of op (address v)) <$> active) /\
    length rs = length active /\
    validatorAddress <$> rs = address <$> active /\
    (forall i v, active !! i = Some v ->
       exists r, rs !! i = Some r /\
                 validatorAddress r = address v /\
                 success r = dispatch_succeeds env (b + i) (request_of op (address v))) /\
    route_summary env toISOString op w =
      (Return (rs,
               length (filter
                         (fun p => dispatch_succeeds env (fst p)
                                     (request_of op (address (snd p))) = true)
                         (imap (fun j v => ((b + j)%nat, v)) active)),
               length active),
       w').
Proof.
  intros active b Hsome.
  eexists. eexists. split.
  { rewrite service_call_eq. apply broadcast_eq. exact Hsome. }
  cbv zeta. fold active. fold b. split; [reflexivity|].
  split; [apply length_imap|]. split.
  { apply list_eq. intros i. rewrite !list_lookup_fmap, list_lookup_imap.
    destruct (active !! i); [|reflexivity]. simpl. f_equal. apply outcome_address. }
  split.
  { intros i v Hi. eexists. split.
    - rewrite list_lookup_imap, Hi. reflexivity.
    - split; [apply outcome_address | apply outcome_success]. }
  rewrite route_summary_eq, (broadcast_eq env toISOString _ w Hsome).
  cbv zeta beta iota. rewrite count_success_outcomes, length_imap. reflexivity.
Qed.

(** C8. With no active peer, each of the five broadcasts returns the
    empty list normally and at once (the world is unchanged: nothing is
    sent), and its route reports zero successes out of zero.  A broadcast
    over a non-empty list, even if every peer fails, reports a non-empty
    list and a positive total. *)
Theorem broadcast_to_nobody_is_empty (op : Operation) (w w2 : World) :
  getActiveValidatorNodes (this w) = [] ->
  getActiveValidatorNodes (this w2) <> [] ->
  service_call env toISOString op w = (Return [], w) /\
  route_summary env toISOString op w = (Return ([], 0%nat, 0%nat), w) /\
  exists rs n total w2',
    route_summary env toISOString op w2 = (Return (rs, n, total), w2') /\
    rs <> [] /\ (0 < total)%nat.
Proof.
  intros Hnone Hsome. split; [|split].
  - rewrite service_call_eq. apply broadcast_nobody. exact Hnone.
  - rewrite route_summary_eq, broadcast_nobody by exact Hnone. reflexivity.
  - destruct (route_summary_nonempty op w2 Hsome)
      as (rs & n & w2' & Hroute & Hlen).
    exists rs, n, (length rs), w2'. split; [exact Hroute|].
    destruct rs; [|split; [discriminate | simpl; lia]].
    destruct (getActiveValidatorNodes (this w2)); [contradiction | discriminate].
Qed.

End Facts.

Import ValidatorScenarios.

(** The scenario of the specification: peers A, B and C, the call to B
    times out. *)
Example broadcast_A_B_C :
  fst (route_summary b_times_out millis (Transaction a_transaction) three_peers) =
  Return
    ([mkValidatorResponse true (Some (Opaque "ok")) None "1000" "10.0.0.1:4000";
      mkValidatorResponse false None (Some "timeout of 10000ms exceeded") "2000"
        "10.0.0.2:4000";
      mkValidatorResponse true (Some (Opaque "ok")) None "3000" "10.0.0.3:4000"],
     2%nat, 3%nat).
Proof. vm_compute. reflexivity. Qed.

Lemma broadcast_one_outcome_per_peer_witness :
  let env := b_times_out in
  let op := Transaction a_transaction in
  let w := three_peers in
  getActiveValidatorNodes (this w) <> [] /\
  exists rs w',
    service_call env millis op w = (Return rs, w') /\
    length rs = 3%nat /\
    validatorAddress <$> rs = ["10.0.0.1:4000"; "10.0.0.2:4000"; "10.0.0.3:4000"] /\
    success <$> rs = [true; false; true] /\
    route_summary env millis op w = (Return (rs, 2%nat, 3%nat), w').
Proof.
  cbv zeta.
  assert (Hsome : getActiveValidatorNodes (this three_peers) <> []).
  { vm_compute. discriminate. }
  split; [exact Hsome|].
  destruct (broadcast_one_outcome_per_peer b_times_out millis
              (Transaction a_transaction) three_peers Hsome)
    as (rs & w' & Hcall & _ & Hlen & Haddr & _ & Hroute).
  exists rs, w'. split; [exact Hcall|]. split; [exact Hlen|]. split; [exact Haddr|].
  split; [|exact Hroute].
  vm_compute in Hcall. injection Hcall as <- _. reflexivity.
Defined.

Lemma broadcast_to_nobody_is_empty_witness :
  let env := b_times_out in
  let op := Batch (mkBatch [a_transaction; a_transaction]) in
  getActiveValidatorNodes (this no_active_peer) = [] /\
  getActiveValidatorNodes (this three_peers) <> [] /\
  service_call env millis op no_active_peer = (Return [], no_active_peer) /\
  route_summary env millis op no_active_peer =
    (Return ([], 0%nat, 0%nat), no_active_peer).
Proof.
  cbv zeta.
  assert (Hsome : getActiveValidatorNodes (this three_peers) <> []).
  { vm_compute. discriminate. }
  split; [reflexivity|]. split; [exact Hsome|].
  destruct (broadcast_to_nobody_is_empty b_times_out millis
              (Batch (mkBatch [a_transaction; a_transaction]))
              no_active_peer three_peers eq_refl Hsome) as (Hcall & Hroute & _).
  split; [exact Hcall | exact Hroute].
Defined.

End BroadcastFacts.

(** * Further properties of the connection manager *)

Module P2pMore.
Import P2pService P2pFacts.

Section Facts.
Variable env : Env Body (list string).

Local Abbreviation World := (Async.World Service Body).

(** X1. A registration never throws and sends one POST to [/register]
    carrying this node's address; it returns [true] and ends in
    [REGISTERED] when the answer has status 201 or 200, and returns
    [false] and ends in [FAILED] on any other status or on an error; it
    touches no other field. *)
Theorem registration_ends_registered_or_failed (w : World) :
  let ok := registration_succeeds env w in
  let w' := snd (registerWithSeedNode env w) in
  fst (registerWithSeedNode env w) = Return ok /\
  registrationStatus (this w') = (if ok then REGISTERED else FAILED) /\
  sent w' = sent w ++ [registerRequest (this w)] /\
  body (registerRequest (this w)) = Some (JSON_stringify (nodeAddress (this w))) /\
  connected (this w') = connected (this w) /\
  lastPingTime (this w') = lastPingTime (this w) /\
  reconnectAttempts (this w') = reconnectAttempts (this w) /\
  reconnectIntervalRef (this w') = reconnectIntervalRef (this w) /\
  pingIntervalRef (this w') = pingIntervalRef (this w) /\
  handles w' = handles w.
Proof.
  cbv zeta. rewrite registerWithSeedNode_eq. cbv zeta.
  destruct (registration_succeeds env w); simpl; repeat split; reflexivity.
Qed.

(** X2. A ping never throws and sends one GET to [/ping]; [connected]
    becomes the result of the ping, whatever it was; [lastPingTime] is
    set to the time read after the answer when the ping succeeds and
    keeps its value when it fails; registration status, counter and both
    timers are left alone. *)
Theorem ping_sets_connected_to_its_result (w : World) :
  let ok := ping_succeeds env w in
  let w' := snd (pingSeedNode env w) in
  fst (pingSeedNode env w) = Return ok /\
  connected (this w') = ok /\
  lastPingTime (this w') =
    (if ok then Some (clock env (S (length (sent w)))) else lastPingTime (this w)) /\
  sent w' = sent w ++ [pingRequest (this w)] /\
  registrationStatus (this w') = registrationStatus (this w) /\
  reconnectAttempts (this w') = reconnectAttempts (this w) /\
  reconnectIntervalRef (this w') = reconnectIntervalRef (this w) /\
  pingIntervalRef (this w') = pingIntervalRef (this w) /\
  handles w' = handles w.
Proof.
  cbv zeta. rewrite pingSeedNode_eq. cbv zeta.
  destruct (ping_succeeds env w); simpl; repeat split; try reflexivity.
  rewrite length_app. simpl. do 2 f_equal. lia.
Qed.

(** X3. When the ping fails, [connectToSeedNode] returns [false] without
    attempting a registration: the ping is the only request sent and
    [registrationStatus] keeps its value.  The node is disconnected and a
    reconnect timer is active afterwards: the one that was active, or
    else a newly created one. *)
Theorem connect_without_ping_skips_registration (w : World) :
  ping_succeeds env w = false ->
  let w' := snd (connectToSeedNode env w) in
  fst (connectToSeedNode env w) = Return false /\
  sent w' = sent w ++ [pingRequest (this w)] /\
  registrationStatus (this w') = registrationStatus (this w) /\
  connected (this w') = false /\
  lastPingTime (this w') = lastPingTime (this w) /\
  reconnectAttempts (this w') = reconnectAttempts (this w) /\
  reconnectIntervalRef (this w') =
    Some (default (handles w) (reconnectIntervalRef (this w))).
Proof.
  intros Hping. cbv zeta. rewrite connectToSeedNode_eq. cbv zeta.
  rewrite Hping, pingSeedNode_eq. cbv zeta. rewrite Hping. cbn [fst snd].
  rewrite handleConnectionFailure_eq. cbn [this sent handles].
  change (reconnectIntervalRef (set_connected false (this w)))
    with (reconnectIntervalRef (this w)).
  destruct (reconnectIntervalRef (this w)) as [h|] eqn:Href; simpl;
    rewrite ?Href; repeat split; reflexivity.
Qed.


(** *** Helper facts on single calls *)

Lemma registration_succeeds_frame (w : World) (s : Service) (n : nat) :
  config s = config (this w) ->
  nodeAddress s = nodeAddress (this w) ->
  registration_succeeds env (mkWorld s (sent w) n) = registration_succeeds env w.
Proof.
  intros Hc Ha. unfold registration_succeeds, registerRequest. simpl.
  rewrite Hc, Ha. reflexivity.
Qed.

Lemma startPingInterval_eq (w : World) :
  startPingInterval w =
  (Return tt,
   mkWorld (set_pingIntervalRef (Some (handles w)) (this w)) (sent w) (S (handles w))).
Proof.
  destruct w as [[cfg addr c r t [p|] a h] snt n]; reflexivity.
Qed.

Lemma onModuleInit_full (w : World) :
  onModuleInit env w =
  let w1 := snd (connectToSeedNode env w) in
  (Return tt,
   mkWorld (set_pingIntervalRef (Some (handles w1)) (this w1)) (sent w1) (S (handles w1))).
Proof.
  unfold onModuleInit, bind. cbv zeta.
  destruct (connectToSeedNode env w) as [[b|e] w1] eqn:Hc.
  - apply startPingInterval_eq.
  - rewrite connectToSeedNode_eq in Hc. simpl in Hc.
    destruct (ping_succeeds env w); discriminate.
Qed.

Lemma onModuleDestroy_eq (w : World) :
  onModuleDestroy w =
  (Return tt,
   mkWorld (set_reconnectIntervalRef None (set_pingIntervalRef None (this w)))
     (sent w) (handles w)).
Proof.
  destruct w as [[cfg addr c r t [p|] a [h|]] snt n]; reflexivity.
Qed.

(** The request of [getKnownNodes], respectively [getActiveNodes]. *)
Lemma getKnownNodes_eq (w : World) :
  getKnownNodes env w =
  if connected (this w) then
    let req := mkRequest GET ("http://" +:+ seedNodeAddress (config (this w)) +:+ "/nodes")
                 None [] None in
    (Return match respond env (length (sent w)) req with
            | Emits r => data r
            | Errors _ => []
            end,
     mkWorld (this w) (sent w ++ [req]) (handles w))
  else (Return [], w).
Proof.
  unfold getKnownNodes, seedUrl, firstValueFrom_rethrow, subscribe,
    try_catch, bind, ret, throw, gets. simpl.
  destruct (connected (this w)); simpl; [|reflexivity].
  destruct (respond env _ _); reflexivity.
Qed.

Lemma getActiveNodes_eq (w : World) :
  getActiveNodes env w =
  if connected (this w) then
    let req := mkRequest GET
                 ("http://" +:+ seedNodeAddress (config (this w)) +:+ "/nodes/active")
                 None [] None in
    (Return match respond env (length (sent w)) req with
            | Emits r => data r
            | Errors _ => []
            end,
     mkWorld (this w) (sent w ++ [req]) (handles w))
  else (Return [], w).
Proof.
  unfold getActiveNodes, seedUrl, firstValueFrom_rethrow, subscribe,
    try_catch, bind, ret, throw, gets. simpl.
  destruct (connected (this w)); simpl; [|reflexivity].
  destruct (respond env _ _); reflexivity.
Qed.

(** What a connection attempt does to the fields a status reader sees. *)
Lemma connectToSeedNode_fields (w : World) :
  let w' := snd (connectToSeedNode env w) in
  if ping_succeeds env w then
    connected (this w') = true /\ is_Some (lastPingTime (this w'))
  else
    connected (this w') = false /\
    lastPingTime (this w') = lastPingTime (this w) /\
    registrationStatus (this w') = registrationStatus (this w).
Proof.
  cbv zeta. rewrite connectToSeedNode_eq. cbv zeta.
  rewrite pingSeedNode_eq. cbv zeta.
  destruct (ping_succeeds env w) eqn:Hping; cbn [fst snd].
  - rewrite registerWithSeedNode_eq. cbv zeta.
    destruct (registration_succeeds env _); simpl; split; eauto.
  - rewrite handleConnectionFailure_eq. cbn [this sent handles].
    change (reconnectIntervalRef (set_connected false (this w)))
      with (reconnectIntervalRef (this w)).
    destruct (reconnectIntervalRef (this w)); simpl; auto.
Qed.

(** X5. Failure handling is idempotent: it leaves the node disconnected
    with a reconnect timer active, and running it again changes nothing;
    when a timer is already active it only clears [connected]. *)
Theorem failure_handling_is_idempotent (w : World) :
  let w1 := after handleConnectionFailure w in
  fst (handleConnectionFailure w) = Return tt /\
  after handleConnectionFailure w1 = w1 /\
  connected (this w1) = false /\
  is_Some (reconnectIntervalRef (this w1)) /\
  (is_Some (reconnectIntervalRef (this w)) ->
   w1 = mkWorld (set_connected false (this w)) (sent w) (handles w)).
Proof.
  unfold after. cbv zeta.
  destruct w as [[cfg addr c r t p a [h|]] snt n]; simpl;
    repeat split; eauto.
  intros [h Hh]. discriminate.
Qed.

(** X6. [onModuleInit] never throws and always leaves the ping timer
    running, on the handle created last, whether or not the connection
    attempt succeeded; [connected] is the result of the ping; after a
    failed ping a reconnect timer is active as well, after a successful
    one the reconnect timer is as before. *)
Theorem start_always_runs_the_ping_timer (w : World) :
  let w' := after (onModuleInit env) w in
  fst (onModuleInit env w) = Return tt /\
  (exists h, pingIntervalRef (this w') = Some h /\ handles w' = S h) /\
  connected (this w') = ping_succeeds env w /\
  reconnectAttempts (this w') = reconnectAttempts (this w) /\
  (ping_succeeds env w = false -> is_Some (reconnectIntervalRef (this w'))) /\
  (ping_succeeds env w = true ->
   reconnectIntervalRef (this w') = reconnectIntervalRef (this w)).
Proof.
  unfold after. cbv zeta. rewrite onModuleInit_full. cbv zeta. cbn [fst snd].
  destruct (connectToSeedNode_frame env w) as (_ & Ha & Hnone & Hsome & Hconn).
  cbv zeta in *. simpl.
  split; [reflexivity|]. split; [eauto|]. split; [exact Hconn|].
  split; [exact Ha|]. split.
  - intros Hping. rewrite connectToSeedNode_eq. cbv zeta. rewrite Hping.
    rewrite pingSeedNode_eq. cbv zeta. rewrite Hping. cbn [fst snd].
    rewrite handleConnectionFailure_eq. cbn [this sent handles].
    change (reconnectIntervalRef (set_connected false (this w)))
      with (reconnectIntervalRef (this w)).
    destruct (reconnectIntervalRef (this w)) eqn:Href; simpl; rewrite ?Href; eauto.
  - intros Hping. rewrite connectToSeedNode_eq. cbv zeta. rewrite Hping.
    cbn [fst snd]. rewrite registerWithSeedNode_eq. cbv zeta.
    rewrite pingSeedNode_eq. cbv zeta. rewrite Hping.
    destruct (registration_succeeds env _); reflexivity.
Qed.

(** Every event either records a successful ping, or leaves
    [lastPingTime] and [registrationStatus] alone and does not turn
    [connected] on. *)
Lemma fire_pinged (e : Event) (w : World) :
  let w' := fire env e w in
  (connected (this w') = true /\ is_Some (lastPingTime (this w'))) \/
  (lastPingTime (this w') = lastPingTime (this w) /\
   registrationStatus (this w') = registrationStatus (this w) /\
   (connected (this w') = true -> connected (this w) = true)).
Proof.
  cbv zeta. destruct e; unfold fire, after.
  - rewrite onModuleInit_full. cbv zeta. cbn [snd this].
    pose proof (connectToSeedNode_fields w) as H. cbv zeta in H.
    destruct (ping_succeeds env w); simpl.
    + left. exact H.
    + right. destruct H as (Hc & Ht & Hr). rewrite Hc. repeat split; auto.
      discriminate.
  - destruct (pingIntervalRef (this w)); [|right; auto].
    rewrite pingTick_eq, pingSeedNode_eq. cbv zeta.
    destruct (ping_succeeds env w); simpl; [left; eauto | right].
    repeat split; auto. discriminate.
  - destruct (reconnectIntervalRef (this w)) as [h|]; [|right; auto].
    destruct (Z.lt_ge_cases (reconnectAttempts (this w))
                (maxReconnectAttempts (config (this w)))) as [Hlt|Hge].
    + rewrite reconnectTick_attempt by exact Hlt. cbv zeta.
      match goal with |- context [connectToSeedNode env ?w0] =>
        pose proof (connectToSeedNode_fields w0) as H;
        rewrite (ping_succeeds_frame env w) in H by reflexivity;
        cbv zeta in H;
        set (w1 := snd (connectToSeedNode env w0)) in *
      end.
      destruct (ping_succeeds env w).
      * destruct H as (Hc & Ht). rewrite Hc. left. simpl. auto.
      * destruct H as (Hc & Ht & Hr). rewrite Hc. right. simpl in *.
        rewrite Hc. repeat split; auto. discriminate.
    + rewrite reconnectTick_exhausted by exact Hge. right. simpl. auto.
  - rewrite getKnownNodes_this. right. auto.
  - rewrite getActiveNodes_this. right. auto.
  - rewrite onModuleDestroy_eq. right. simpl. auto.
Qed.

(** X8. In every state reached from the initial one: a connected node has
    a [lastPingTime], and a node whose registration status is no longer
    [NOT_REGISTERED] has one too (registration is only attempted after a
    successful ping). *)
Theorem connected_nodes_have_pinged (cfg : SeedNodeConfig) (addr : string)
    (es : list Event) :
  let w := run env es (initial cfg addr) in
  (connected (this w) = true -> is_Some (lastPingTime (this w))) /\
  (registrationStatus (this w) <> NOT_REGISTERED -> is_Some (lastPingTime (this w))).
Proof.
  induction es as [|e es IH] using rev_ind; cbv zeta.
  - simpl. split; [discriminate | congruence].
  - rewrite run_snoc. cbv zeta in IH. destruct IH as (IHc & IHr).
    destruct (fire_pinged e (run env es (initial cfg addr)))
      as [(_ & Hsome) | (Ht & Hr & Hc)].
    + split; intros _; exact Hsome.
    + rewrite Ht, Hr. split; auto.
Qed.

(** An event other than [onModuleInit], in a state without reconnect
    timer, leaves timer, counter and registration status alone and sends
    GET requests only. *)
Lemma fire_idle (e : Event) (w : World) :
  e <> ModuleInit ->
  reconnectIntervalRef (this w) = None ->
  let w' := fire env e w in
  reconnectIntervalRef (this w') = None /\
  reconnectAttempts (this w') = reconnectAttempts (this w) /\
  registrationStatus (this w') = registrationStatus (this w) /\
  exists new, sent w' = sent w ++ new /\ Forall (fun r => method r = GET) new.
Proof.
  intros Hne Href. cbv zeta. destruct e; unfold fire, after.
  - contradiction.
  - destruct (pingIntervalRef (this w)).
    + rewrite pingTick_eq, pingSeedNode_eq. cbv zeta.
      destruct (ping_succeeds env w); simpl; repeat split; auto;
        eexists; (split; [reflexivity|]); repeat constructor.
    + repeat split; auto. exists []. rewrite app_nil_r. split; constructor.
  - rewrite Href. repeat split; auto. exists []. rewrite app_nil_r. split; constructor.
  - rewrite getKnownNodes_eq. destruct (connected (this w)); cbv zeta; simpl.
    + repeat split; auto. eexists. split; [reflexivity|]. repeat constructor.
    + repeat split; auto. exists []. rewrite app_nil_r. split; constructor.
  - rewrite getActiveNodes_eq. destruct (connected (this w)); cbv zeta; simpl.
    + repeat split; auto. eexists. split; [reflexivity|]. repeat constructor.
    + repeat split; auto. exists []. rewrite app_nil_r. split; constructor.
  - rewrite onModuleDestroy_eq. simpl. repeat split; auto.
    exists []. rewrite app_nil_r. split; constructor.
Qed.

(** X9. Once no reconnect timer is active, nothing but a new
    [onModuleInit] brings one back: through any sequence of ping-timer
    firings, reconnect-timer events, node-list requests and shutdown, the
    reconnect timer stays cleared, counter and registration status keep
    their values, and only GET requests are sent, so no registration is
    attempted, whatever the seed node answers. *)
Theorem no_reconnect_without_restart (w : World) (es : list Event) :
  ModuleInit ∉ es ->
  reconnectIntervalRef (this w) = None ->
  let w' := run env es w in
  reconnectIntervalRef (this w') = None /\
  reconnectAttempts (this w') = reconnectAttempts (this w) /\
  registrationStatus (this w') = registrationStatus (this w) /\
  exists new, sent w' = sent w ++ new /\ Forall (fun r => method r = GET) new.
Proof.
  intros Hnotin Href. cbv zeta.
  induction es as [|e es IH] using rev_ind.
  - simpl. repeat split; auto. exists []. rewrite app_nil_r. split; constructor.
  - apply not_elem_of_app in Hnotin as [Hnotin Hne].
    destruct (IH Hnotin) as (Hr & Ha & Hs & new & Hsent & Hget).
    rewrite run_snoc.
    destruct (fire_idle e (run env es w)) as (Hr' & Ha' & Hs' & new' & Hsent' & Hget').
    { intros ->. apply Hne. constructor. }
    { exact Hr. }
    rewrite Hr', Ha', Hs', Ha, Hs. repeat split; auto.
    exists (new ++ new'). rewrite Hsent', Hsent, app_assoc. split; [reflexivity|].
    apply Forall_app. auto.
Qed.


(** X11. A connected node passes the answer of the seed node through:
    [getKnownNodes] and [getActiveNodes] send one GET, to [/nodes] and to
    [/nodes/active], and return the payload of the answer, or the empty
    list when the request errors; in every case they return normally and
    leave the fields of the service as they are. *)
Theorem node_lists_pass_the_answer_through (w : World) :
  connected (this w) = true ->
  let known := mkRequest GET
                 ("http://" +:+ seedNodeAddress (config (this w)) +:+ "/nodes")
                 None [] None in
  let active := mkRequest GET
                  ("http://" +:+ seedNodeAddress (config (this w)) +:+ "/nodes/active")
                  None [] None in
  getKnownNodes env w =
    (Return match respond env (length (sent w)) known with
            | Emits r => data r
            | Errors _ => []
            end,
     mkWorld (this w) (sent w ++ [known]) (handles w)) /\
  getActiveNodes env w =
    (Return match respond env (length (sent w)) active with
            | Emits r => data r
            | Errors _ => []
            end,
     mkWorld (this w) (sent w ++ [active]) (handles w)).
Proof.
  intros Hon. cbv zeta. rewrite getKnownNodes_eq, getActiveNodes_eq, Hon.
  split; reflexivity.
Qed.

End Facts.

Import Scenarios MoreScenarios.

Lemma connect_without_ping_skips_registration_witness :
  let env := seed_down in
  let w := initial five_attempts this_node in
  ping_succeeds env w = false /\
  fst (connectToSeedNode env w) = Return false /\
  sent (snd (connectToSeedNode env w)) = [pingRequest (this w)] /\
  registrationStatus (this (snd (connectToSeedNode env w))) = NOT_REGISTERED /\
  reconnectIntervalRef (this (snd (connectToSeedNode env w))) = Some 0%nat.
Proof.
  cbv zeta. split; [reflexivity|].
  destruct (connect_without_ping_skips_registration seed_down
              (initial five_attempts this_node) eq_refl)
    as (Hr & Hs & Hst & _ & _ & _ & Href).
  split; [exact Hr|]. split; [exact Hs|]. split; [exact Hst | exact Href].
Defined.


(** A node that started well and then loses the seed node: pings fail,
    and no reconnect timer or registration ever follows. *)
Lemma no_reconnect_without_restart_witness :
  let env := seed_lost_after_start in
  let w := run env [ModuleInit] (initial five_attempts this_node) in
  let es := [PingTimer; GetNodes; ReconnectTimer; PingTimer] in
  (ModuleInit ∉ es) /\
  reconnectIntervalRef (this w) = None /\
  connected (this (run env es w)) = false /\
  reconnectIntervalRef (this (run env es w)) = None /\
  registrationStatus (this (run env es w)) = REGISTERED.
Proof.
  cbv zeta.
  assert (Hnotin : ModuleInit ∉ [PingTimer; GetNodes; ReconnectTimer; PingTimer]).
  { rewrite !not_elem_of_cons. repeat split; try discriminate.
    apply not_elem_of_nil. }
  split; [exact Hnotin|]. split; [reflexivity|]. split; [reflexivity|].
  destruct (no_reconnect_without_restart seed_lost_after_start
              (run seed_lost_after_start [ModuleInit] (initial five_attempts this_node))
              _ Hnotin eq_refl)
    as (Hr & _ & Hs & _).
  split; [exact Hr | exact Hs].
Defined.


Lemma node_lists_pass_the_answer_through_witness :
  let env := seed_up in
  let w := run env [ModuleInit] (initial five_attempts this_node) in
  connected (this w) = true /\
  fst (getKnownNodes env w) = Return [] /\
  length (sent (snd (getKnownNodes env w))) = 3%nat.
Proof.
  cbv zeta. split; [reflexivity|].
  destruct (node_lists_pass_the_answer_through seed_up
              (run seed_up [ModuleInit] (initial five_attempts this_node)) eq_refl)
    as (Hk & _).
  rewrite Hk. split; reflexivity.
Defined.

End P2pMore.

(** * Further properties of the peer directory, the fan-out and the routes *)

Module ValidatorsMore.
Import ValidatorsService ValidatorsController ValidatorsFacts BroadcastFacts.
Import ValidatorsRoutes.

Section Facts.
Variable env : Env Body Data.
Variable toISOString : Time -> string.

Local Abbreviation World := (Async.World Service Body).

(** *** Helper facts *)

(** A load either fails, or the seed node answered with a list. *)
Lemma load_cases (w : World) :
  load_fails env w = true \/
  exists r allNodes,
    respond env (length (sent w)) (loadRequest (this w)) = Emits r /\
    Http.data r = Nodes allNodes.
Proof.
  unfold load_fails.
  destruct (respond env _ _) as [r|e]; [|left; reflexivity].
  destruct (Http.data r) eqn:Hd; [right; eauto | left; reflexivity].
Qed.

(** A fan-out returns normally and leaves the service as it is. *)
Lemma broadcast_frame (mk : string -> Request Body) (w : World) :
  exists rs,
    fst (broadcast env toISOString mk w) = Return rs /\
    length rs = length (getActiveValidatorNodes (this w)) /\
    this (snd (broadcast env toISOString mk w)) = this w /\
    handles (snd (broadcast env toISOString mk w)) = handles w.
Proof.
  destruct (getActiveValidatorNodes (this w)) as [|v vs] eqn:Hactive.
  - rewrite broadcast_nobody by exact Hactive. exists []. auto.
  - rewrite broadcast_eq by (rewrite Hactive; discriminate). cbv zeta.
    rewrite Hactive. eexists. split; [reflexivity|].
    split; [apply length_imap | split; reflexivity].
Qed.

Lemma outcome_well_formed (k : nat) (mk : string -> Request Body) (v : ValidatorNode) :
  well_formed (outcome env toISOString k mk v).
Proof.
  unfold well_formed, outcome. destruct (respond env _ _); simpl; eauto.
Qed.

Lemma length_filter_all {A} (P : A -> Prop) `{forall x, Decision (P x)} (l : list A) :
  length (filter P l) = length l <-> Forall P l.
Proof.
  induction l as [|x l IH]; [split; constructor|].
  rewrite filter_cons. destruct (decide (P x)) as [Hx|Hx]; simpl.
  - split.
    + intros Hlen. constructor; [exact Hx|]. apply IH. lia.
    + intros Hall. inversion Hall; subst. f_equal. apply IH. assumption.
  - split.
    + intros Hlen. pose proof (length_filter P l). lia.
    + intros Hall. inversion Hall; subst. contradiction.
Qed.

Lemma filter_none {A} (P : A -> Prop) `{forall x, Decision (P x)} (l : list A) :
  Forall (fun x => ~ P x) l -> filter P l = [].
Proof.
  induction 1 as [|x l Hx _ IH]; [reflexivity|].
  rewrite filter_cons. destruct (decide (P x)); [contradiction | exact IH].
Qed.

(** X12. A load that is answered with a list, whatever the status of the
    answer, replaces the whole directory by the entries of type
    [validator] of that list, in the order of the list and with the
    flags the seed node sent, and returns the new directory; nothing of
    the previous directory is kept. *)
Theorem successful_load_replaces_directory (w : World) (r : Response Data)
    (allNodes : list ValidatorNode) :
  respond env (length (sent w)) (loadRequest (this w)) = Emits r ->
  Http.data r = Nodes allNodes ->
  let w' := snd (loadValidatorNodes env w) in
  fst (loadValidatorNodes env w) = Return (validatorNodes (this w')) /\
  validatorNodes (this w') = filter (fun node => nodeType node = "validator") allNodes /\
  sublist (validatorNodes (this w')) allNodes /\
  (forall node, node ∈ validatorNodes (this w') <->
                node ∈ allNodes /\ nodeType node = "validator") /\
  sent w' = sent w ++ [loadRequest (this w)] /\
  healthCheckInterval (this w') = healthCheckInterval (this w).
Proof.
  intros Hresp Hdata. cbv zeta.
  rewrite (loadValidatorNodes_succeeds env w r allNodes Hresp Hdata). cbv zeta.
  simpl. split; [reflexivity|]. split; [reflexivity|].
  split; [apply sublist_filter|]. split; [|split; reflexivity].
  intros node. rewrite list_elem_of_filter. tauto.
Qed.

Lemma pingValidator_route_eq (address : string) (w : World) :
  ValidatorsRoutes.pingValidator env toISOString address w =
  (Return (mkPingReport address
             (probe_succeeds env (length (sent w)) address)
             (toISOString (clock env (S (length (sent w)))))),
   mkWorld (this w) (sent w ++ [probeRequest address]) (handles w)).
Proof.
  unfold ValidatorsRoutes.pingValidator, bind at 1.
  rewrite pingValidator_eq. unfold bind, new_Date, ret. simpl.
  rewrite length_snoc. reflexivity.
Qed.

(** X13. The route that pings a validator by address never throws and
    never touches the directory: it sends one probe with a timeout of 5
    seconds, reports [responding] exactly when the answer has status 200,
    and leaves every record, also the one of the pinged address, and so
    the active peers, as they were. *)
Theorem ad_hoc_ping_leaves_directory (address : string) (w : World) :
  let w' := snd (ValidatorsRoutes.pingValidator env toISOString address w) in
  fst (ValidatorsRoutes.pingValidator env toISOString address w) =
    Return (mkPingReport address
              (probe_succeeds env (length (sent w)) address)
              (toISOString (clock env (S (length (sent w)))))) /\
  sent w' = sent w ++ [probeRequest address] /\
  timeout (probeRequest address) = Some 5000 /\
  this w' = this w /\
  getActiveValidatorNodes (this w') = getActiveValidatorNodes (this w).
Proof.
  cbv zeta. rewrite pingValidator_route_eq. repeat split; reflexivity.
Qed.

(** X14. The fan-out keeps no state: each of the five broadcasts returns
    normally and leaves every field of the service as it was, so a peer
    whose call failed is still an active peer afterwards, and no timer
    is created. *)
Theorem broadcast_keeps_no_state (op : Operation) (w : World) :
  let w' := snd (service_call env toISOString op w) in
  (exists rs, fst (service_call env toISOString op w) = Return rs) /\
  this w' = this w /\
  getActiveValidatorNodes (this w') = getActiveValidatorNodes (this w) /\
  handles w' = handles w /\
  this (snd (route_summary env toISOString op w)) = this w.
Proof.
  cbv zeta. rewrite route_summary_eq, service_call_eq.
  destruct (broadcast_frame (request_of op) w) as (rs & Hfst & _ & Hthis & Hh).
  destruct (broadcast env toISOString (request_of op) w) as [[rs'|e] w'];
    simpl in *; [|discriminate].
  rewrite Hthis. repeat split; eauto.
Qed.

(** X15. Every outcome record a broadcast returns is either a success
    with a payload and no error, or a failure with an error message and
    no payload, and it carries the address of one of the active peers:
    the placeholder address of a rejected promise never appears. *)
Theorem outcomes_are_well_formed (op : Operation) (w w' : World)
    (rs : list ValidatorResponse) :
  service_call env toISOString op w = (Return rs, w') ->
  Forall (fun r =>
            well_formed r /\
            exists v, v ∈ getActiveValidatorNodes (this w) /\
                      validatorAddress r = address v) rs.
Proof.
  rewrite service_call_eq. intros Hcall.
  destruct (getActiveValidatorNodes (this w)) as [|v vs] eqn:Hactive.
  - rewrite broadcast_nobody in Hcall by exact Hactive.
    injection Hcall as <- _. constructor.
  - assert (Hsome : getActiveValidatorNodes (this w) <> [])
      by (rewrite Hactive; discriminate).
    rewrite <- Hactive. clear Hactive.
    rewrite broadcast_eq in Hcall by exact Hsome.
    cbv zeta in Hcall. injection Hcall as <- _.
    apply Forall_lookup. intros i r Hi.
    rewrite list_lookup_imap in Hi.
    destruct (getActiveValidatorNodes (this w) !! i) as [x|] eqn:Hx; [|discriminate].
    simpl in Hi. injection Hi as <-. split; [apply outcome_well_formed|].
    exists x. split; [eapply list_elem_of_lookup_2; exact Hx|].
    apply outcome_address.
Qed.

(** X16. In the report of every broadcast route the total is the number
    of outcomes, which is the number of active peers, and the success
    count is the number of outcomes with [success] set, so it never
    exceeds the total; the two are equal exactly when every call
    succeeded. *)
Theorem success_count_within_total (op : Operation) (w w' : World)
    (rs : list ValidatorResponse) (n total : nat) :
  route_summary env toISOString op w = (Return (rs, n, total), w') ->
  total = length rs /\
  total = length (getActiveValidatorNodes (this w)) /\
  n = count_success rs /\
  (n <= total)%nat /\
  (n = total <-> Forall (fun r => success r = true) rs).
Proof.
  rewrite route_summary_eq. intros Hroute.
  destruct (broadcast_frame (request_of op) w) as (rs' & Hfst & Hlen & _).
  destruct (broadcast env toISOString (request_of op) w) as [[rs''|e] w''];
    simpl in *; [|discriminate].
  injection Hfst as <-. injection Hroute as <- <- <- _.
  unfold count_success. repeat split; auto.
  - apply length_filter.
  - apply length_filter_all.
  - apply length_filter_all.
Qed.

(** *** The directory over the life of the service *)

Lemma swept_identity (k : nat) (node : ValidatorNode) :
  address (swept env toISOString k node) = address node /\
  nodeType (swept env toISOString k node) = nodeType node /\
  version (swept env toISOString k node) = version node /\
  isResponding (swept env toISOString k node) = probe_succeeds env k (address node).
Proof.
  unfold swept. destruct (probe_succeeds env k (address node)); simpl; auto.
Qed.

Lemma validators_onModuleInit_eq (w : World) :
  ValidatorsService.onModuleInit env w =
  let w1 := snd (loadValidatorNodes env w) in
  (Return tt,
   mkWorld (set_healthCheckInterval (Some (handles w1)) (this w1))
     (sent w1) (S (handles w1))).
Proof.
  unfold ValidatorsService.onModuleInit, bind at 1. cbv zeta.
  assert (Hstart : forall w1 : World,
            startHealthCheckInterval w1 =
            (Return tt,
             mkWorld (set_healthCheckInterval (Some (handles w1)) (this w1))
               (sent w1) (S (handles w1)))).
  { intros [[ns seed [h|]] snt n]; reflexivity. }
  destruct (load_cases w) as [Hfail | (r & allNodes & Hresp & Hdata)].
  - rewrite (loadValidatorNodes_fails env w Hfail). apply Hstart.
  - rewrite (loadValidatorNodes_succeeds env w r allNodes Hresp Hdata).
    cbv zeta. apply Hstart.
Qed.

Lemma refreshValidators_eq (w : World) :
  ValidatorsRoutes.refreshValidators env w =
  match loadValidatorNodes env w with
  | (Return vs, w') =>
      (Return (mkRefreshReport "Validator nodes refreshed" vs (length vs)), w')
  | (Throw e, w') => (Throw e, w')
  end.
Proof.
  unfold ValidatorsRoutes.refreshValidators, refreshValidatorNodes, bind.
  destruct (loadValidatorNodes env w) as [[vs|e] w']; reflexivity.
Qed.

(** What a load leaves in the directory. *)
Lemma load_directory (w : World) :
  let nodes' := validatorNodes (this (snd (loadValidatorNodes env w))) in
  nodes' = validatorNodes (this w) \/
  exists allNodes, nodes' = filter (fun node => nodeType node = "validator") allNodes.
Proof.
  cbv zeta. destruct (load_cases w) as [Hfail | (r & allNodes & Hresp & Hdata)].
  - rewrite (loadValidatorNodes_fails env w Hfail). left. reflexivity.
  - rewrite (loadValidatorNodes_succeeds env w r allNodes Hresp Hdata).
    right. exists allNodes. reflexivity.
Qed.

(** What each event leaves in the directory: the same records, a freshly
    loaded list of validators, or the records after a sweep. *)
Lemma fire_directory (e : Event) (w : World) :
  let nodes := validatorNodes (this w) in
  let nodes' := validatorNodes (this (fire env toISOString e w)) in
  nodes' = nodes \/
  (loads e = true /\
   exists allNodes, nodes' = filter (fun node => nodeType node = "validator") allNodes) \/
  (e = HealthTimer /\
   exists b, nodes' = imap (fun j x => swept env toISOString (b + j) x) nodes).
Proof.
  cbv zeta. destruct e; unfold fire, after.
  - rewrite validators_onModuleInit_eq. cbv zeta. cbn [snd this].
    change (validatorNodes (set_healthCheckInterval ?h ?s)) with (validatorNodes s).
    destruct (load_directory w) as [Hsame | Hnew]; [left; exact Hsame|].
    right. left. split; [reflexivity | exact Hnew].
  - destruct (healthCheckInterval (this w)); [|left; reflexivity].
    rewrite checkValidatorNodesHealth_eq. right. right.
    split; [reflexivity|]. eexists. reflexivity.
  - left. reflexivity.
  - left. reflexivity.
  - rewrite refreshValidators_eq.
    destruct (load_directory w) as [Hsame | Hnew];
      destruct (loadValidatorNodes env w) as [[vs|err] w1]; cbn [snd] in *.
    + left. exact Hsame.
    + left. exact Hsame.
    + right. left. split; [reflexivity | exact Hnew].
    + right. left. split; [reflexivity | exact Hnew].
  - rewrite pingValidator_route_eq. left. reflexivity.
  - rewrite route_summary_eq.
    destruct (broadcast_frame (request_of op) w) as (rs & _ & _ & Hthis & _).
    destruct (broadcast env toISOString (request_of op) w) as [[rs'|err] w'];
      cbn [snd] in *; rewrite Hthis; left; reflexivity.
  - left. destruct w as [[ns seed [h|]] snt n]; reflexivity.
Qed.

Lemma validators_run_snoc (es : list Event) (e : Event) (w : World) :
  run env toISOString (es ++ [e]) w =
  fire env toISOString e (run env toISOString es w).
Proof. unfold run. rewrite foldl_app. reflexivity. Qed.

(** X17. In every state reached from the initial one, every record of
    the directory has the type [validator]: a load keeps the entries of
    that type only, and no other operation changes the type of a record
    or adds one. *)
Theorem directory_holds_validators_only (seed : string) (es : list Event) :
  Forall (fun node => nodeType node = "validator")
    (validatorNodes (this (run env toISOString es (initial seed)))).
Proof.
  induction es as [|e es IH] using rev_ind; [constructor|].
  rewrite validators_run_snoc.
  destruct (fire_directory e (run env toISOString es (initial seed)))
    as [-> | [(_ & allNodes & ->) | (_ & b & ->)]].
  - exact IH.
  - apply Forall_forall. intros node Hin.
    apply list_elem_of_filter in Hin. tauto.
  - apply Forall_lookup. intros i node Hi. rewrite list_lookup_imap in Hi.
    destruct (_ !! i) as [x|] eqn:Hx; [|discriminate]. simpl in Hi.
    injection Hi as <-. destruct (swept_identity (b + i) x) as (_ & -> & _).
    rewrite Forall_lookup in IH. eapply IH. exact Hx.
Qed.

(** X18. Only a load changes who is in the directory: through any
    sequence of sweeps, listings, ad hoc pings, broadcasts and shutdown,
    the directory keeps the same records in the same order as far as
    address, type and version go; only [isResponding] and [lastSeen] may
    change.  In particular a directory that is empty stays empty until
    [onModuleInit] or a refresh loads it. *)
Theorem membership_changes_only_on_load (w : World) (es : list Event) :
  Forall (fun e => loads e = false) es ->
  (fun node => (address node, nodeType node, version node))
    <$> validatorNodes (this (run env toISOString es w)) =
  (fun node => (address node, nodeType node, version node))
    <$> validatorNodes (this w).
Proof.
  induction es as [|e es IH] using rev_ind; intros Hes; [reflexivity|].
  apply Forall_app in Hes as [Hes He]. inversion He as [|? ? Hload _]; subst.
  rewrite validators_run_snoc, <- (IH Hes).
  destruct (fire_directory e (run env toISOString es w))
    as [-> | [(Hl & _) | (_ & b & ->)]].
  - reflexivity.
  - congruence.
  - apply list_eq. intros i. rewrite !list_lookup_fmap, list_lookup_imap.
    destruct (_ !! i) as [x|]; [|reflexivity]. simpl.
    destruct (swept_identity (b + i) x) as (-> & -> & -> & _). reflexivity.
Qed.

(** *** The listing routes *)

(** X19. The two listing routes read the directory and change nothing.
    [GET /validators] reports the whole directory, its length as total
    and the number of responding records as active, so that active never
    exceeds total and equals it exactly when every record is responding;
    [GET /validators/active] lists the responding records only, with
    their number. *)
Theorem listings_count_the_directory (w : World) :
  let nodes := validatorNodes (this w) in
  let responding := getActiveValidatorNodes (this w) in
  getValidators w =
    (Return (mkValidatorsListing nodes (length nodes) (length responding)), w) /\
  getActiveValidators w =
    (Return (mkActiveListing responding (length responding)), w) /\
  (length responding <= length nodes)%nat /\
  (length responding = length nodes <->
   Forall (fun node => isResponding node = true) nodes) /\
  Forall (fun node => isResponding node = true) responding.
Proof.
  cbv zeta. split; [reflexivity|]. split; [reflexivity|].
  unfold getActiveValidatorNodes. split; [apply length_filter|].
  split; [apply length_filter_all|].
  apply Forall_forall. intros node Hin. apply list_elem_of_filter in Hin. tauto.
Qed.

(** X20. A refresh that fails answers like one that found no validator:
    the route returns normally with the usual message, an empty list and
    total 0; the directory is kept, so the listing route goes on
    reporting the records cached before. *)
Theorem failed_refresh_reports_empty (w : World) :
  load_fails env w = true ->
  let w' := snd (ValidatorsRoutes.refreshValidators env w) in
  fst (ValidatorsRoutes.refreshValidators env w) =
    Return (mkRefreshReport "Validator nodes refreshed" [] 0) /\
  fst (getValidators w') =
    Return (mkValidatorsListing (validatorNodes (this w))
              (length (validatorNodes (this w)))
              (length (getActiveValidatorNodes (this w)))).
Proof.
  intros Hfail. cbv zeta. rewrite refreshValidators_eq.
  rewrite (loadValidatorNodes_fails env w Hfail). split; reflexivity.
Qed.

(** *** Sweeps and broadcasts together *)

(** The responding records after a sweep are those whose probe was
    answered with 200. *)
Lemma active_after_sweep (xs : list ValidatorNode) : forall b : nat,
  length (filter (fun node => isResponding node = true)
            (imap (fun j x => swept env toISOString (b + j) x) xs)) =
  length (filter (fun p => probe_succeeds env (fst p) (address (snd p)) = true)
            (imap (fun j x => ((b + j)%nat, x)) xs)).
Proof.
  induction xs as [|x xs IH]; intros b; [reflexivity|].
  rewrite !imap_cons, !filter_cons. cbn [fst snd].
  destruct (swept_identity (b + 0) x) as (_ & _ & _ & ->).
  assert (H1 : imap ((fun j y => swept env toISOString (b + j) y) ∘ S) xs =
               imap (fun j y => swept env toISOString (S b + j) y) xs).
  { apply imap_ext. intros j y _. cbn. f_equal. lia. }
  assert (H2 : imap ((fun j y => ((b + j)%nat, y)) ∘ S) xs =
               imap (fun j y => ((S b + j)%nat, y)) xs).
  { apply imap_ext. intros j y _. cbn. f_equal. lia. }
  rewrite H1, H2.
  destruct (decide (probe_succeeds env (b + 0) (address x) = true));
    cbn [length]; rewrite IH; reflexivity.
Qed.

(** X21. After a sweep the number of active peers is the number of
    probes of that sweep that were answered with status 200, whatever the
    flags were before: a peer marked as not responding that answers is
    active again, and one that was active and does not answer no longer
    is. *)
Theorem sweep_decides_the_active_peers (w : World) :
  let nodes := validatorNodes (this w) in
  let b := length (sent w) in
  let w' := snd (checkValidatorNodesHealth env toISOString w) in
  length (getActiveValidatorNodes (this w')) =
    length (filter (fun p => probe_succeeds env (fst p) (address (snd p)) = true)
              (imap (fun j x => ((b + j)%nat, x)) nodes)) /\
  (forall i node', validatorNodes (this w') !! i = Some node' ->
     isResponding node' = probe_succeeds env (b + i) (address node')).
Proof.
  cbv zeta. rewrite checkValidatorNodesHealth_eq. cbn [snd this].
  unfold getActiveValidatorNodes.
  change (validatorNodes (set_validatorNodes ?l ?s)) with l.
  split; [apply active_after_sweep|].
  intros i node' Hi. rewrite list_lookup_imap in Hi.
  destruct (_ !! i) as [x|]; [|discriminate]. simpl in Hi. injection Hi as <-.
  destruct (swept_identity (length (sent w) + i) x) as (-> & _ & _ & ->).
  reflexivity.
Qed.

(** X22. A sweep in which no probe is answered with 200 silences the
    fan-out: no peer is active afterwards, and until the next sweep or
    load every broadcast returns the empty list without sending
    anything, although the directory still holds every record. *)
Theorem outage_during_sweep_silences_broadcasts (w : World) (op : Operation) :
  (forall i node, validatorNodes (this w) !! i = Some node ->
     probe_succeeds env (length (sent w) + i) (address node) = false) ->
  let w' := snd (checkValidatorNodesHealth env toISOString w) in
  getActiveValidatorNodes (this w') = [] /\
  length (validatorNodes (this w')) = length (validatorNodes (this w)) /\
  service_call env toISOString op w' = (Return [], w') /\
  route_summary env toISOString op w' = (Return ([], 0%nat, 0%nat), w').
Proof.
  intros Hdown. cbv zeta.
  assert (Hnone : getActiveValidatorNodes
                    (this (snd (checkValidatorNodesHealth env toISOString w))) = []).
  { rewrite checkValidatorNodesHealth_eq. cbn [snd this].
    unfold getActiveValidatorNodes.
    change (validatorNodes (set_validatorNodes ?l ?s)) with l.
    apply filter_none. apply Forall_lookup. intros i node' Hi.
    rewrite list_lookup_imap in Hi.
    destruct (validatorNodes (this w) !! i) as [x|] eqn:Hx; [|discriminate].
    simpl in Hi. injection Hi as <-.
    destruct (swept_identity (length (sent w) + i) x) as (_ & _ & _ & ->).
    rewrite (Hdown i x Hx). discriminate. }
  split; [exact Hnone|]. split.
  { rewrite checkValidatorNodesHealth_eq. cbn [snd this].
    change (validatorNodes (set_validatorNodes ?l ?s)) with l. apply length_imap. }
  split.
  - rewrite service_call_eq. apply broadcast_nobody. exact Hnone.
  - rewrite route_summary_eq, broadcast_nobody by exact Hnone. reflexivity.
Qed.

(** *** Start and shutdown *)

(** X23. [onModuleInit] never throws, sends the one load request and
    always leaves the health-check timer running, on the handle created
    last, also when the load from the seed node failed; in that case the
    directory is left as it was. *)
Theorem start_always_runs_the_health_timer (w : World) :
  let w' := snd (ValidatorsService.onModuleInit env w) in
  fst (ValidatorsService.onModuleInit env w) = Return tt /\
  (exists h, healthCheckInterval (this w') = Some h /\ handles w' = S h) /\
  sent w' = sent w ++ [loadRequest (this w)] /\
  (load_fails env w = true -> validatorNodes (this w') = validatorNodes (this w)).
Proof.
  cbv zeta. rewrite validators_onModuleInit_eq. cbv zeta. cbn [fst snd this sent handles].
  split; [reflexivity|]. split; [eauto|].
  change (validatorNodes (set_healthCheckInterval ?h ?s)) with (validatorNodes s).
  destruct (load_cases w) as [Hfail | (r & allNodes & Hresp & Hdata)].
  - rewrite (loadValidatorNodes_fails env w Hfail). split; reflexivity.
  - rewrite (loadValidatorNodes_succeeds env w r allNodes Hresp Hdata).
    split; [reflexivity|]. intros Hfail. unfold load_fails in Hfail.
    rewrite Hresp, Hdata in Hfail. discriminate.
Qed.

End Facts.

Import ValidatorScenarios MoreValidatorScenarios.

(** The seed node lists a relay between two validators: the relay is
    left out. *)
Lemma successful_load_replaces_directory_witness :
  let env := seed_lists_a_relay in
  let w := three_peers in
  respond env (length (sent w)) (loadRequest (this w)) =
    Emits (mkResponse 200 (Nodes [peerA; a_relay; peerC])) /\
  fst (loadValidatorNodes env w) = Return [peerA; peerC] /\
  validatorNodes (this (snd (loadValidatorNodes env w))) = [peerA; peerC].
Proof.
  cbv zeta. split; [reflexivity|].
  destruct (successful_load_replaces_directory seed_lists_a_relay three_peers
              (mkResponse 200 (Nodes [peerA; a_relay; peerC]))
              [peerA; a_relay; peerC] eq_refl eq_refl)
    as (Hret & Hnodes & _).
  rewrite Hret, Hnodes. split; reflexivity.
Defined.

Lemma outcomes_are_well_formed_witness :
  let env := b_times_out in
  let op := Transaction a_transaction in
  let rs := [mkValidatorResponse true (Some (Opaque "ok")) None "1000" "10.0.0.1:4000";
             mkValidatorResponse false None (Some "timeout of 10000ms exceeded") "2000"
               "10.0.0.2:4000";
             mkValidatorResponse true (Some (Opaque "ok")) None "3000" "10.0.0.3:4000"] in
  service_call env millis op three_peers =
    (Return rs, snd (service_call env millis op three_peers)) /\
  Forall (fun r =>
            well_formed r /\
            exists v, v ∈ getActiveValidatorNodes (this three_peers) /\
                      validatorAddress r = address v) rs.
Proof.
  cbv zeta.
  assert (Hcall : service_call b_times_out millis (Transaction a_transaction) three_peers =
            (Return
               [mkValidatorResponse true (Some (Opaque "ok")) None "1000" "10.0.0.1:4000";
                mkValidatorResponse false None (Some "timeout of 10000ms exceeded") "2000"
                  "10.0.0.2:4000";
                mkValidatorResponse true (Some (Opaque "ok")) None "3000" "10.0.0.3:4000"],
             snd (service_call b_times_out millis (Transaction a_transaction) three_peers))).
  { vm_compute. reflexivity. }
  split; [exact Hcall|].
  exact (outcomes_are_well_formed b_times_out millis _ _ _ _ Hcall).
Defined.

Lemma success_count_within_total_witness :
  let env := b_times_out in
  let op := Critical (mkCritical "p-1" "payload" 1 None) in
  let rs := [mkValidatorResponse true (Some (Opaque "ok")) None "1000" "10.0.0.1:4000";
             mkValidatorResponse false None (Some "timeout of 10000ms exceeded") "2000"
               "10.0.0.2:4000";
             mkValidatorResponse true (Some (Opaque "ok")) None "3000" "10.0.0.3:4000"] in
  route_summary env millis op three_peers =
    (Return (rs, 2%nat, 3%nat), snd (route_summary env millis op three_peers)) /\
  3%nat = length rs /\ (2 <= 3)%nat.
Proof.
  cbv zeta.
  assert (Hroute : route_summary b_times_out millis
                     (Critical (mkCritical "p-1" "payload" 1 None)) three_peers =
            (Return
               ([mkValidatorResponse true (Some (Opaque "ok")) None "1000" "10.0.0.1:4000";
                 mkValidatorResponse false None (Some "timeout of 10000ms exceeded") "2000"
                   "10.0.0.2:4000";
                 mkValidatorResponse true (Some (Opaque "ok")) None "3000" "10.0.0.3:4000"],
                2%nat, 3%nat),
             snd (route_summary b_times_out millis
                    (Critical (mkCritical "p-1" "payload" 1 None)) three_peers))).
  { vm_compute. reflexivity. }
  split; [exact Hroute|].
  destruct (success_count_within_total b_times_out millis _ _ _ _ _ _ Hroute)
    as (Hlen & _ & _ & Hle & _).
  split; [exact Hlen | exact Hle].
Defined.

(** A sweep, an ad hoc ping, a broadcast and a listing: the same three
    validators remain. *)
Lemma membership_changes_only_on_load_witness :
  let env := b_times_out in
  let es := [HealthTimer; Ping "10.0.0.2:4000"; Call (Transaction a_transaction); ListAll] in
  Forall (fun e => loads e = false) es /\
  address <$> validatorNodes (this (run env millis es three_peers_watched)) =
    ["10.0.0.1:4000"; "10.0.0.2:4000"; "10.0.0.3:4000"] /\
  getActiveValidatorNodes (this (run env millis es three_peers_watched)) <>
    getActiveValidatorNodes (this three_peers_watched).
Proof.
  cbv zeta.
  assert (Hes : Forall (fun e => loads e = false)
                  [HealthTimer; Ping "10.0.0.2:4000";
                   Call (Transaction a_transaction); ListAll]).
  { repeat constructor. }
  split; [exact Hes|]. split.
  - pose proof (membership_changes_only_on_load b_times_out millis
                  three_peers_watched _ Hes) as Hsame.
    apply (f_equal (fmap fst)) in Hsame. apply (f_equal (fmap fst)) in Hsame.
    rewrite <- !list_fmap_compose in Hsame. exact Hsame.
  - vm_compute. discriminate.
Defined.

Lemma failed_refresh_reports_empty_witness :
  let env := seed_unreachable in
  load_fails env three_peers = true /\
  fst (ValidatorsRoutes.refreshValidators env three_peers) =
    Return (mkRefreshReport "Validator nodes refreshed" [] 0) /\
  fst (getValidators (snd (ValidatorsRoutes.refreshValidators env three_peers))) =
    Return (mkValidatorsListing [peerA; peerB; peerC] 3 3).
Proof.
  cbv zeta. split; [reflexivity|].
  exact (failed_refresh_reports_empty seed_unreachable three_peers eq_refl).
Defined.

Lemma outage_during_sweep_silences_broadcasts_witness :
  let env := nobody_answers in
  let op := MempoolStatus None in
  let w' := snd (checkValidatorNodesHealth env millis three_peers) in
  (forall i node, validatorNodes (this three_peers) !! i = Some node ->
     probe_succeeds env (length (sent three_peers) + i) (address node) = false) /\
  getActiveValidatorNodes (this w') = [] /\
  length (validatorNodes (this w')) = 3%nat /\
  route_summary env millis op w' = (Return ([], 0%nat, 0%nat), w').
Proof.
  cbv zeta.
  assert (Hdown : forall i node, validatorNodes (this three_peers) !! i = Some node ->
            probe_succeeds nobody_answers (length (sent three_peers) + i) (address node)
            = false).
  { intros i node _. reflexivity. }
  split; [exact Hdown|].
  destruct (outage_during_sweep_silences_broadcasts nobody_answers millis
              three_peers (MempoolStatus None) Hdown)
    as (Hnone & Hlen & _ & Hroute).
  split; [exact Hnone|]. split; [exact Hlen | exact Hroute].
Defined.

End ValidatorsMore.
